(** * Registration Console: the [App] component of src/renderer/src/App.tsx

    A shallow embedding of the component's hook state, of the query and
    mutation observers it registers with the query client, and of its event
    handlers, followed by the properties of the synchronisation contract
    (form state, cache invalidation, search commit, deletion gate). *)

From stdpp Require Import gmap strings list fin_maps.

Open Scope string_scope.

(** ** Shared types *)

(** Modelled from the spec: the [User] entity of [shared/types], whose
    declaration is not part of the renderer source: an identifier (opaque
    string) with a first and a last name, the three fields [App] reads. *)
Record User := mkUser {
  id : string;
  firstName : string;
  lastName : string
}.

#[global] Instance User_eq_dec : EqDecision User.
Proof. solve_decision. Defined.

(** [CreateUserInput] and [Partial<User>] values are JavaScript objects; the
    component builds them with a computed key ([{ ...prev, [name]: value }]),
    so they are finite maps from property names to strings. *)
Abbreviation Form := (gmap string string).

(** [{ firstName: '', lastName: '' }] *)
Definition emptyForm : Form :=
  <["firstName" := ""]> (<["lastName" := ""]> ∅).

(** [{ firstName: user.firstName, lastName: user.lastName }] *)
Definition formOf (user : User) : Form :=
  <["firstName" := firstName user]> (<["lastName" := lastName user]> ∅).

(** JavaScript truthiness of a string: only the empty string is falsy. *)
Definition truthy (s : string) : bool := negb (String.eqb s "").

(** ** The backend surface

    Modelled from the spec: the [api] object of [@renderer/lib/api] exposes
    [getUsers], [searchUser], [createUser], [updateUser] and [deleteUser];
    its implementation is an external collaborator. A request is recorded
    symbolically; its outcome is supplied by the environment when the
    request settles. *)
Inductive ApiCall :=
| getUsers
| searchUser (term : string)
| createUser (newUser : Form)
| updateUser (uid : string) (patch : Form)
| deleteUser (uid : string).

#[global] Instance ApiCall_eq_dec : EqDecision ApiCall.
Proof. solve_decision. Defined.

Definition isDeleteCall (c : ApiCall) : bool :=
  match c with deleteUser _ => true | _ => false end.

(** ** Query cache

    The component reads and writes through the query client of its
    data-fetching library. What follows models that client as far as the
    component uses it: cached queries keyed by arrays of strings, partial
    key matching on invalidation, refetch of the observed queries, and (in
    the next section) the life cycle of a mutation with its two levels of
    callbacks. Timers (garbage collection, retry delays) are left out. *)

Abbreviation QueryKey := (list string).

(** [['users']] *)
Definition usersKey : QueryKey := ["users"].
(** [['users', 'search', searchTerm]] *)
Definition searchKey (term : string) : QueryKey := ["users"; "search"; term].

(** [queryFn: () => api.getUsers()] *)
Definition usersQueryFn : ApiCall := getUsers.
(** [queryFn: () => (searchTerm ? api.searchUser(searchTerm) : api.getUsers())] *)
Definition searchQueryFn (searchTerm : string) : ApiCall :=
  if truthy searchTerm then searchUser searchTerm else getUsers.

Record Query := mkQuery {
  queryFn : ApiCall;              (* the request its query function makes *)
  data : option (list User);      (* [undefined] until the first success *)
  qerror : bool;                  (* the last fetch was rejected *)
  isInvalidated : bool;
  isFetching : bool
}.

Definition newQuery (fn : ApiCall) : Query :=
  {| queryFn := fn; data := None; qerror := false;
     isInvalidated := false; isFetching := true |}.

Definition invalidate (q : Query) : Query :=
  {| queryFn := queryFn q; data := data q; qerror := qerror q;
     isInvalidated := true; isFetching := isFetching q |}.

(** A fetch starts: a query that never had data goes back to pending. *)
Definition startFetch (q : Query) : Query :=
  {| queryFn := queryFn q; data := data q;
     qerror := match data q with Some _ => qerror q | None => false end;
     isInvalidated := isInvalidated q; isFetching := true |}.

Definition resolveQuery (result : list User) (q : Query) : Query :=
  {| queryFn := queryFn q; data := Some result; qerror := false;
     isInvalidated := false; isFetching := false |}.

Definition rejectQuery (q : Query) : Query :=
  {| queryFn := queryFn q; data := data q; qerror := true;
     isInvalidated := isInvalidated q; isFetching := false |}.

(** [isLoading = isFetching && isPending]: fetching with neither data nor
    error. *)
Definition isLoading (q : option Query) : bool :=
  match q with
  | Some q => isFetching q && negb (qerror q) &&
              match data q with None => true | Some _ => false end
  | None => false
  end.

(** ** Mutations *)

Inductive MutationName :=
| createUserMutation
| deleteUserMutation
| updateUserMutation.

#[global] Instance MutationName_eq_dec : EqDecision MutationName.
Proof. solve_decision. Defined.

Inductive MutationStatus := idle | pending | success | error.

#[global] Instance MutationStatus_eq_dec : EqDecision MutationStatus.
Proof. solve_decision. Defined.

(** The statements a success or error callback of the component performs. *)
Inductive Effect :=
| invalidateQueries (queryKey : QueryKey)
| setFormData (f : Form)
| setEditingUser (u : option User).

(** The options object given to [useMutation]; an absent callback or an
    absent [retry] is [None]. *)
Record MutationOptions (V : Type) := mkOptions {
  mutationFn : V → ApiCall;
  onSuccess : option (list Effect);
  onError : option (list Effect);
  retry : option nat
}.
Arguments mkOptions {V}.
Arguments mutationFn {V}.
Arguments onSuccess {V}.
Arguments onError {V}.
Arguments retry {V}.

(** The second argument of [mutate]: the call-site callbacks. *)
Record MutateOptions := mkMutateOptions {
  callOnSuccess : option (list Effect);
  callOnError : option (list Effect)
}.

Definition noMutateOptions : MutateOptions :=
  {| callOnSuccess := None; callOnError := None |}.

(** A mutation in flight, built from the observer's options. *)
Record Mutation := mkMutation {
  owner : MutationName;
  request : ApiCall;
  mOnSuccess : option (list Effect);
  mOnError : option (list Effect);
  mRetry : nat;                   (* [options.retry ?? 0] *)
  failureCount : nat
}.

Record MutationObserver := mkObserver {
  currentMutation : option nat;
  status : MutationStatus;
  mutateOptions : MutateOptions
}.

Definition idleObserver : MutationObserver :=
  {| currentMutation := None; status := idle;
     mutateOptions := noMutateOptions |}.

Definition isPending (o : MutationObserver) : bool :=
  bool_decide (status o = pending).

(** ** The state of the rendered component *)

(** The six [useState] cells of [App]. *)
Record Component := mkComponent {
  formData : Form;
  editingUser : option User;
  searchInput : string;
  searchTerm : string;
  isDeleteModalOpen : bool;
  userToDelete : option string
}.

(** The query client the component talks to: the query cache, the mutations
    in flight, the three mutation observers and the log of requests sent to
    the backend (newest first). *)
Record QueryClient := mkClient {
  queries : gmap QueryKey Query;
  mutations : gmap nat Mutation;
  nextMutationId : nat;
  createObserver : MutationObserver;
  deleteObserver : MutationObserver;
  updateObserver : MutationObserver;
  calls : list ApiCall
}.

Record World := mkWorld {
  ui : Component;
  client : QueryClient
}.

Definition withUi (f : Component → Component) (w : World) : World :=
  {| ui := f (ui w); client := client w |}.

Definition withClient (f : QueryClient → QueryClient) (w : World) : World :=
  {| ui := ui w; client := f (client w) |}.

Definition withQueries (f : gmap QueryKey Query → gmap QueryKey Query)
    (c : QueryClient) : QueryClient :=
  {| queries := f (queries c); mutations := mutations c;
     nextMutationId := nextMutationId c;
     createObserver := createObserver c; deleteObserver := deleteObserver c;
     updateObserver := updateObserver c; calls := calls c |}.

Definition withMutations (f : gmap nat Mutation → gmap nat Mutation)
    (c : QueryClient) : QueryClient :=
  {| queries := queries c; mutations := f (mutations c);
     nextMutationId := nextMutationId c;
     createObserver := createObserver c; deleteObserver := deleteObserver c;
     updateObserver := updateObserver c; calls := calls c |}.

Definition logCall (a : ApiCall) (c : QueryClient) : QueryClient :=
  {| queries := queries c; mutations := mutations c;
     nextMutationId := nextMutationId c;
     createObserver := createObserver c; deleteObserver := deleteObserver c;
     updateObserver := updateObserver c; calls := a :: calls c |}.

Definition observerOf (name : MutationName) (c : QueryClient)
    : MutationObserver :=
  match name with
  | createUserMutation => createObserver c
  | deleteUserMutation => deleteObserver c
  | updateUserMutation => updateObserver c
  end.

Definition setObserver (name : MutationName) (o : MutationObserver)
    (c : QueryClient) : QueryClient :=
  {| queries := queries c; mutations := mutations c;
     nextMutationId := nextMutationId c;
     createObserver :=
       match name with createUserMutation => o | _ => createObserver c end;
     deleteObserver :=
       match name with deleteUserMutation => o | _ => deleteObserver c end;
     updateObserver :=
       match name with updateUserMutation => o | _ => updateObserver c end;
     calls := calls c |}.

(** *** State setters *)

Definition setFormDataWith (f : Form → Form) : World → World :=
  withUi (λ s,
    {| formData := f (formData s); editingUser := editingUser s;
       searchInput := searchInput s; searchTerm := searchTerm s;
       isDeleteModalOpen := isDeleteModalOpen s;
       userToDelete := userToDelete s |}).

Definition setFormDataTo (f : Form) : World → World :=
  setFormDataWith (λ _, f).

Definition setEditingUserTo (u : option User) : World → World :=
  withUi (λ s,
    {| formData := formData s; editingUser := u;
       searchInput := searchInput s; searchTerm := searchTerm s;
       isDeleteModalOpen := isDeleteModalOpen s;
       userToDelete := userToDelete s |}).

Definition setSearchInput (v : string) : World → World :=
  withUi (λ s,
    {| formData := formData s; editingUser := editingUser s;
       searchInput := v; searchTerm := searchTerm s;
       isDeleteModalOpen := isDeleteModalOpen s;
       userToDelete := userToDelete s |}).

Definition setIsDeleteModalOpen (b : bool) : World → World :=
  withUi (λ s,
    {| formData := formData s; editingUser := editingUser s;
       searchInput := searchInput s; searchTerm := searchTerm s;
       isDeleteModalOpen := b; userToDelete := userToDelete s |}).

Definition setUserToDelete (t : option string) : World → World :=
  withUi (λ s,
    {| formData := formData s; editingUser := editingUser s;
       searchInput := searchInput s; searchTerm := searchTerm s;
       isDeleteModalOpen := isDeleteModalOpen s; userToDelete := t |}).

(** *** Queries: observing, refetching, invalidating *)

(** The keys the component's two [useQuery] hooks currently observe. *)
Definition activeKeys (s : Component) : list QueryKey :=
  [usersKey; searchKey (searchTerm s)].

(** A refetch that cancels the fetch in flight and sends a new request. *)
Definition refetch (k : QueryKey) (c : QueryClient) : QueryClient :=
  match queries c !! k with
  | Some q => logCall (queryFn q) (withQueries (<[k := startFetch q]>) c)
  | None => c
  end.

(** A fetch asked for by an observer: deduplicated while one is in flight. *)
Definition fetchIfIdle (k : QueryKey) (c : QueryClient) : QueryClient :=
  match queries c !! k with
  | Some q => if isFetching q then c else refetch k c
  | None => c
  end.

(** [useQuery] starts observing key [k]: a missing entry is built and
    fetched; an existing one is stale ([staleTime: 0]) and refetched. *)
Definition observeQuery (k : QueryKey) (fn : ApiCall) (c : QueryClient)
    : QueryClient :=
  match queries c !! k with
  | Some _ => fetchIfIdle k c
  | None => logCall fn (withQueries (<[k := newQuery fn]>) c)
  end.

(** Keys are matched partially: [queryKey] selects every cached key it is a
    prefix of. *)
Definition matchesKey (queryKey k : QueryKey) : bool :=
  bool_decide (queryKey `prefix_of` k).

(** [queryClient.invalidateQueries({ queryKey })]: every matching query is
    marked invalidated, and the matching ones under observation are
    refetched. *)
Definition invalidateQueriesIn (queryKey : QueryKey) (active : list QueryKey)
    (c : QueryClient) : QueryClient :=
  foldl (λ c k, if matchesKey queryKey k then refetch k c else c)
    (withQueries
       (map_imap (λ k q,
          Some (if matchesKey queryKey k then invalidate q else q))) c)
    active.

Definition perform (e : Effect) (w : World) : World :=
  match e with
  | invalidateQueries queryKey =>
      withClient (invalidateQueriesIn queryKey (activeKeys (ui w))) w
  | setFormData f => setFormDataTo f w
  | setEditingUser u => setEditingUserTo u w
  end.

(** An optional callback: [cb?.()]. *)
Definition runCallback (cb : option (list Effect)) (w : World) : World :=
  match cb with
  | Some body => foldl (λ w e, perform e w) w body
  | None => w
  end.

(** *** Mutations: [mutate] and settling *)

Definition buildMutation {V} (name : MutationName)
    (options : MutationOptions V) (variables : V) : Mutation :=
  {| owner := name;
     request := mutationFn options variables;
     mOnSuccess := onSuccess options;
     mOnError := onError options;
     mRetry := default 0 (retry options);
     failureCount := 0 |}.

(** [observer.mutate(variables, mutateOptions)]: a new mutation is built and
    becomes the observer's current one, the request is sent, and the observer
    reports [pending]. *)
Definition mutate {V} (name : MutationName) (options : MutationOptions V)
    (variables : V) (mo : MutateOptions) : World → World :=
  withClient (λ c,
    let mid := nextMutationId c in
    setObserver name
      {| currentMutation := Some mid; status := pending;
         mutateOptions := mo |}
      {| queries := queries c;
         mutations := <[mid := buildMutation name options variables]>
                        (mutations c);
         nextMutationId := S mid;
         createObserver := createObserver c;
         deleteObserver := deleteObserver c;
         updateObserver := updateObserver c;
         calls := mutationFn options variables :: calls c |}).

(** The observer is told of the outcome of mutation [mid] only while that
    is still its current mutation; it then runs the call-site callback. *)
Definition notifyObserver (name : MutationName) (mid : nat)
    (st : MutationStatus) (pick : MutateOptions → option (list Effect))
    (w : World) : World :=
  let o := observerOf name (client w) in
  if decide (currentMutation o = Some mid) then
    runCallback (pick (mutateOptions o))
      (withClient (setObserver name
         {| currentMutation := Some mid; status := st;
            mutateOptions := mutateOptions o |}) w)
  else w.

(** The backend answers the request of mutation [mid]. On success the
    mutation's own [onSuccess] runs first, then the call-site one. On a
    rejection the request is sent again while [failureCount < retry];
    otherwise the error callbacks run and the observer reports [error]. *)
Definition settleMutation (mid : nat) (ok : bool) (w : World) : World :=
  match mutations (client w) !! mid with
  | None => w
  | Some m =>
      if ok then
        notifyObserver (owner m) mid success callOnSuccess
          (withClient (withMutations (delete mid))
             (runCallback (mOnSuccess m) w))
      else if Nat.ltb (failureCount m) (mRetry m) then
        withClient (λ c,
          logCall (request m)
            (withMutations
               (<[mid := {| owner := owner m; request := request m;
                            mOnSuccess := mOnSuccess m;
                            mOnError := mOnError m; mRetry := mRetry m;
                            failureCount := S (failureCount m) |}]>) c)) w
      else
        notifyObserver (owner m) mid error callOnError
          (withClient (withMutations (delete mid))
             (runCallback (mOnError m) w))
  end.

(** ** The component *)

(** [useMutation({ mutationFn: (newUser) => api.createUser(newUser), ... })] *)
Definition createUserOptions : MutationOptions Form :=
  {| mutationFn := λ newUser, createUser newUser;
     onSuccess := Some [invalidateQueries ["users"];
                        setFormData emptyForm];
     onError := None;
     retry := None |}.

(** [useMutation({ mutationFn: (id) => api.deleteUser(id), ... })] *)
Definition deleteUserOptions : MutationOptions string :=
  {| mutationFn := λ uid, deleteUser uid;
     onSuccess := Some [invalidateQueries ["users"];
                        invalidateQueries ["users"; "search"]];
     onError := None;
     retry := None |}.

(** [useMutation({ mutationFn: ({ id, data }) => api.updateUser(id, data), ... })] *)
Definition updateUserOptions : MutationOptions (string * Form) :=
  {| mutationFn := λ v, updateUser (fst v) (snd v);
     onSuccess := Some [invalidateQueries ["users"]];
     onError := None;
     retry := None |}.

(** The call-site [onSuccess] of [handleUpdate]. *)
Definition handleUpdateOptions : MutateOptions :=
  {| callOnSuccess := Some [setEditingUser None; setFormData emptyForm];
     callOnError := None |}.

(** *** Event handlers *)

Definition handleSubmit (w : World) : World :=
  mutate createUserMutation createUserOptions (formData (ui w))
    noMutateOptions w.

Definition handleInputChange (name value : string) : World → World :=
  setFormDataWith (λ prev, <[name := value]> prev).

Definition handleDelete (uid : string) (w : World) : World :=
  setIsDeleteModalOpen true (setUserToDelete (Some uid) w).

Definition handleConfirmDelete (w : World) : World :=
  match userToDelete (ui w) with
  | Some target =>
      if truthy target then
        setUserToDelete None
          (setIsDeleteModalOpen false
             (mutate deleteUserMutation deleteUserOptions target
                noMutateOptions w))
      else w
  | None => w
  end.

Definition handleEdit (user : User) (w : World) : World :=
  setFormDataTo (formOf user) (setEditingUserTo (Some user) w).

Definition handleUpdate (w : World) : World :=
  match editingUser (ui w) with
  | Some user =>
      mutate updateUserMutation updateUserOptions
        (id user, formData (ui w)) handleUpdateOptions w
  | None => w
  end.

Definition handleSearch (value : string) : World → World :=
  setSearchInput value.

(** [setSearchTerm]: a changed term re-renders the component, whose search
    query then observes the new key; an unchanged one does nothing. *)
Definition setSearchTerm (t : string) (w : World) : World :=
  if decide (t = searchTerm (ui w)) then w
  else
    withClient (observeQuery (searchKey t) (searchQueryFn t))
      (withUi (λ s,
         {| formData := formData s; editingUser := editingUser s;
            searchInput := searchInput s; searchTerm := t;
            isDeleteModalOpen := isDeleteModalOpen s;
            userToDelete := userToDelete s |}) w).

Definition executeSearch (w : World) : World :=
  setSearchTerm (searchInput (ui w)) w.

Definition handleSearchKeyPress (key : string) (w : World) : World :=
  if decide (key = "Enter") then executeSearch w else w.

(** The form's Cancel button. *)
Definition handleCancel (w : World) : World :=
  setEditingUserTo None (setFormDataTo emptyForm w).

(** The [onClose] of the confirmation modal. *)
Definition onClose (w : World) : World :=
  setUserToDelete None (setIsDeleteModalOpen false w).

(** [disabled={createUserMutation.isPending || updateUserMutation.isPending}] *)
Definition submitDisabled (w : World) : bool :=
  isPending (createObserver (client w)) ||
  isPending (updateObserver (client w)).

(** [onSubmit={editingUser ? handleUpdate : handleSubmit}], behind the
    submit button's [disabled] flag. The flag is the one of the last
    render: [onSubmit] takes the component to have rendered again since the
    previous event, so that the flag tells the observers' present status.
    Neither handler has a guard of its own; a submit that arrives before
    that render runs [submitHandler]. *)
Definition onSubmit (w : World) : World :=
  if submitDisabled w then w
  else match editingUser (ui w) with
       | Some _ => handleUpdate w
       | None => handleSubmit w
       end.

(** The handler held by the form's [onSubmit] prop,
    [editingUser ? handleUpdate : handleSubmit], as it runs when a submit
    reaches it: the rendered button was enabled, whatever the observers'
    status has become since. *)
Definition submitHandler (w : World) : World :=
  match editingUser (ui w) with
  | Some _ => handleUpdate w
  | None => handleSubmit w
  end.

(** The row's delete button, [disabled={deleteUserMutation.isPending}]. *)
Definition onDeleteClick (uid : string) (w : World) : World :=
  if isPending (deleteObserver (client w)) then w else handleDelete uid w.

(** *** Fetch outcomes *)

(** The fetch in flight for key [k] succeeds with [result]. *)
Definition queryResolved (k : QueryKey) (result : list User)
    : World → World :=
  withClient (withQueries (λ qs,
    match qs !! k with
    | Some q => if isFetching q then <[k := resolveQuery result q]> qs
                else qs
    | None => qs
    end)).

(** The fetch in flight for key [k] is rejected for good. *)
Definition queryRejected (k : QueryKey) : World → World :=
  withClient (withQueries (λ qs,
    match qs !! k with
    | Some q => if isFetching q then <[k := rejectQuery q]> qs else qs
    | None => qs
    end)).

(** [refetchOnWindowFocus: true]: both observed queries are stale
    ([staleTime: 0]) and fetched again unless a fetch is in flight. *)
Definition windowFocus (w : World) : World :=
  withClient (λ c, foldl (λ c k, fetchIfIdle k c) c (activeKeys (ui w))) w.

(** *** Events

    What can happen to the mounted component: the user acts on a control,
    the window regains focus, or the backend answers a request. The row
    buttons are offered for any user and the prompt's two buttons in any
    state, which only adds behaviours. *)

Inductive Event :=
| InputChange (name value : string)
| Submit
| CancelClick
| EditClick (user : User)
| DeleteClick (uid : string)
| ConfirmClick
| CloseModal
| SearchChange (value : string)
| SearchClick
| SearchKeyDown (key : string)
| WindowFocus
| MutationSettled (mid : nat) (ok : bool)
| QueryResolved (k : QueryKey) (result : list User)
| QueryRejected (k : QueryKey).

Definition dispatch (e : Event) (w : World) : World :=
  match e with
  | InputChange name value => handleInputChange name value w
  | Submit => onSubmit w
  | CancelClick => handleCancel w
  | EditClick user => handleEdit user w
  | DeleteClick uid => onDeleteClick uid w
  | ConfirmClick => handleConfirmDelete w
  | CloseModal => onClose w
  | SearchChange value => handleSearch value w
  | SearchClick => executeSearch w
  | SearchKeyDown key => handleSearchKeyPress key w
  | WindowFocus => windowFocus w
  | MutationSettled mid ok => settleMutation mid ok w
  | QueryResolved k result => queryResolved k result w
  | QueryRejected k => queryRejected k w
  end.

Definition run (evs : list Event) (w : World) : World :=
  foldl (λ w e, dispatch e w) w evs.

(** The component as first mounted: empty form, no search term, gate idle;
    both queries are built and fetching. *)
Definition initialWorld : World :=
  {| ui := {| formData := emptyForm; editingUser := None;
              searchInput := ""; searchTerm := "";
              isDeleteModalOpen := false; userToDelete := None |};
     client :=
       observeQuery (searchKey "") (searchQueryFn "")
         (observeQuery usersKey usersQueryFn
            {| queries := ∅; mutations := ∅; nextMutationId := 0;
               createObserver := idleObserver;
               deleteObserver := idleObserver;
               updateObserver := idleObserver; calls := [] |}) |}.

Inductive reachable : World → Prop :=
| reachable_initial : reachable initialWorld
| reachable_step e w : reachable w → reachable (dispatch e w).

(** The states reached when the submit button's rendered [disabled] flag
    may lag behind the observers: besides the events handled as above, a
    submit may run its handler although a create or an update has become
    pending since the last render. *)
Inductive lagReachable : World → Prop :=
| lagReachable_initial : lagReachable initialWorld
| lagReachable_dispatch e w : lagReachable w → lagReachable (dispatch e w)
| lagReachable_submit w : lagReachable w → lagReachable (submitHandler w).

(** *** What is rendered *)

(** [data: searchResults] of the search query. *)
Definition searchResults (w : World) : option (list User) :=
  q ← queries (client w) !! searchKey (searchTerm (ui w)); data q.

(** [data: users] of the full-list query. *)
Definition users (w : World) : option (list User) :=
  q ← queries (client w) !! usersKey; data q.

Inductive View :=
| Spinner
| ErrorMessage
| Table (rows : list User).

(** [isLoading || isSearching ? spinner : error ? message : table], the
    table's rows being [searchResults?.map(...)]. *)
Definition render (w : World) : View :=
  if isLoading (queries (client w) !! usersKey) ||
     isLoading (queries (client w) !! searchKey (searchTerm (ui w)))
  then Spinner
  else if from_option qerror false (queries (client w) !! usersKey)
  then ErrorMessage
  else Table (default [] (searchResults w)).

(** The backend, answering as [backend] does, resolves the fetch of [k]. *)
Definition answerQuery (backend : ApiCall → list User) (k : QueryKey)
    (w : World) : World :=
  match queries (client w) !! k with
  | Some q => dispatch (QueryResolved k (backend (queryFn q))) w
  | None => w
  end.

(** A sequence of form field edits, each a name and a value. *)
Definition applyEdits (edits : list (string * string)) (w : World) : World :=
  foldl (λ w e, handleInputChange (fst e) (snd e) w) w edits.

(** The value the last edit of field [k] gave it, if any edit named [k]. *)
Fixpoint lastValue (k : string) (edits : list (string * string))
    : option string :=
  match edits with
  | [] => None
  | e :: rest =>
      match lastValue k rest with
      | Some v => Some v
      | None => if decide (fst e = k) then Some (snd e) else None
      end
  end.

(** ** Notions used by the properties *)

(** The part of the client that concerns mutations. *)
Definition mutationSide (c : QueryClient) :=
  (mutations c, nextMutationId c,
   createObserver c, deleteObserver c, updateObserver c).

(** The part of the component no success callback writes to. *)
Definition untouchedByCallbacks (s : Component) :=
  (searchInput s, searchTerm s, isDeleteModalOpen s, userToDelete s).

(** Every mutation in flight is the current, pending mutation of the
    observer that owns it, was built without retries and without an error
    callback, and no call-site error callback is registered. *)
Definition mutationsTracked (c : QueryClient) : Prop :=
  (∀ mid m, mutations c !! mid = Some m →
     mid < nextMutationId c
     ∧ currentMutation (observerOf (owner m) c) = Some mid
     ∧ status (observerOf (owner m) c) = pending
     ∧ mRetry m = 0 ∧ mOnError m = None)
  ∧ (∀ name, callOnError (mutateOptions (observerOf name c)) = None).

(** The observer of [name] once its current mutation [mid] has settled with
    status [st]. *)
Definition settledObserver (name : MutationName) (mid : nat)
    (st : MutationStatus) (c : QueryClient) : QueryClient :=
  setObserver name
    {| currentMutation := Some mid; status := st;
       mutateOptions := mutateOptions (observerOf name c) |}
    (withMutations (delete mid) c).

(** The gate's two cells agree: the prompt is open exactly when a target
    is recorded. *)
Definition gateConsistent (s : Component) : Prop :=
  match userToDelete s with
  | Some _ => isDeleteModalOpen s = true
  | None => isDeleteModalOpen s = false
  end.

(** While a deletion is in flight no target is recorded. *)
Definition deleteGuarded (w : World) : Prop :=
  status (deleteObserver (client w)) = pending → userToDelete (ui w) = None.

(** The gate awaits confirmation of the deletion of [target]: the prompt is
    open and [target] is the recorded identifier. *)
Definition awaitingConfirmation (w : World) (target : string) : Prop :=
  isDeleteModalOpen (ui w) = true ∧ userToDelete (ui w) = Some target.

(** The gate is idle: prompt closed, nothing recorded. *)
Definition gateIdle (w : World) : Prop :=
  isDeleteModalOpen (ui w) = false ∧ userToDelete (ui w) = None.

(** Event [e] delivers the outcome of mutation [mid]. *)
Definition settles (mid : nat) (e : Event) : bool :=
  match e with
  | MutationSettled mid' _ => bool_decide (mid' = mid)
  | _ => false
  end.

(** None of the events delivers the outcome of mutation [mid]. *)
Definition unsettled (mid : nat) (evs : list Event) : Prop :=
  Forall (λ e, settles mid e = false) evs.

(** Mutation [m], numbered [mid], is in flight as the current mutation of
    the observer [name], started with call-site options [mo]; a deletion in
    flight finds the gate idle. *)
Definition awaitingOutcome (name : MutationName) (mid : nat) (m : Mutation)
    (mo : MutateOptions) (w : World) : Prop :=
  mid < nextMutationId (client w)
  ∧ mutations (client w) !! mid = Some m
  ∧ owner m = name
  ∧ observerOf name (client w)
    = {| currentMutation := Some mid; status := pending;
         mutateOptions := mo |}
  ∧ (name = deleteUserMutation → gateIdle w).

(** Going from [w] to [w'], every cached query whose key [queryKey] matches
    has been marked invalidated, and those under observation are being
    fetched again. *)
Definition invalidatedBetween (queryKey : QueryKey) (w w' : World) : Prop :=
  ∀ k q, queries (client w) !! k = Some q → queryKey `prefix_of` k →
    ∃ q', queries (client w') !! k = Some q'
          ∧ isInvalidated q' = true
          ∧ (k ∈ activeKeys (ui w) → isFetching q' = true).

(** The request each cached query makes, by key. *)
Definition queryFns (c : QueryClient) : gmap QueryKey ApiCall :=
  queryFn <$> queries c.

(** The cache holds the full-list query and the search query of the
    committed term, and every search query makes the request its term
    stands for. *)
Definition queriesBuilt (w : World) : Prop :=
  queryFns (client w) !! usersKey = Some usersQueryFn
  ∧ (∀ t fn, queryFns (client w) !! searchKey t = Some fn →
       fn = searchQueryFn t)
  ∧ queryFns (client w) !! searchKey (searchTerm (ui w))
    = Some (searchQueryFn (searchTerm (ui w))).

(** Event [e] commits the live input as the search term: a click on the
    search button, or Enter in the input box. *)
Definition commits (e : Event) : bool :=
  match e with
  | SearchClick => true
  | SearchKeyDown key => bool_decide (key = "Enter")
  | _ => false
  end.

(** Event [e] is typing in the live input box. *)
Definition isTyping (e : Event) : bool :=
  match e with
  | SearchChange _ => true
  | SearchKeyDown key => negb (bool_decide (key = "Enter"))
  | _ => false
  end.

(** A run with the typing in the live input box left out. *)
Definition withoutTyping (evs : list Event) : list Event :=
  filter (λ e, isTyping e = false) evs.

(** The state with the live input box value forgotten. *)
Definition forgetInput (w : World) : World := setSearchInput "" w.

(** ** More of what is rendered *)

(** The submit button's label:
    [editingUser ? (updateUserMutation.isPending ? 'Updating...' : 'Update')
                 : (createUserMutation.isPending ? 'Registering...' : 'Register')] *)
Definition submitLabel (w : World) : string :=
  match editingUser (ui w) with
  | Some _ =>
      if isPending (updateObserver (client w)) then "Updating..."
      else "Update"
  | None =>
      if isPending (createObserver (client w)) then "Registering..."
      else "Register"
  end.

(** The identifier cell of a row, [user.id.slice(0, 8)]; a string is taken
    as its sequence of code units. *)
Definition displayId (user : User) : string :=
  String.substring 0 8 (id user).

(** The three text cells of a table row. *)
Definition rowCells (user : User) : string * string * string :=
  (displayId user, firstName user, lastName user).

(** The rows of the table, [searchResults?.map(...)]. *)
Definition tableRows (w : World) : list (string * string * string) :=
  rowCells <$> default [] (searchResults w).

(** ** Further notions used by the properties *)

(** A request that writes to the backend. *)
Definition isWrite (c : ApiCall) : bool :=
  match c with
  | createUser _ | updateUser _ _ | deleteUser _ => true
  | getUsers | searchUser _ => false
  end.

(** A request that names its subject: no search for, and no deletion of,
    the empty string. *)
Definition namesSubject (c : ApiCall) : Prop :=
  match c with
  | searchUser term => term ≠ ""
  | deleteUser uid => uid ≠ ""
  | _ => True
  end.

(** Every cached query sits under one of the component's two kinds of key
    and makes the request of that key. *)
Definition cacheShape (c : QueryClient) : Prop :=
  ∀ k fn, queryFns c !! k = Some fn →
    (k = usersKey ∧ fn = usersQueryFn)
    ∨ ∃ t, k = searchKey t ∧ fn = searchQueryFn t.

(** Going from [c] to [c'] the request log only grew, by requests that
    satisfy [P]. *)
Definition logsOnly (P : ApiCall → Prop) (c c' : QueryClient) : Prop :=
  ∃ new, calls c' = (new ++ calls c)%list ∧ Forall P new.

(** A mutation owned by [name] is in flight. *)
Definition inFlight (name : MutationName) (c : QueryClient) : Prop :=
  ∃ mid m, mutations c !! mid = Some m ∧ owner m = name.

(** An observer reporting [pending] has its current mutation in flight. *)
Definition pendingInFlight (c : QueryClient) : Prop :=
  ∀ name, status (observerOf name c) = pending →
    ∃ mid m, currentMutation (observerOf name c) = Some mid
             ∧ mutations c !! mid = Some m ∧ owner m = name.


(** Both name fields of a form are present. *)
Definition formDefined (f : Form) : Prop :=
  is_Some (f !! "firstName") ∧ is_Some (f !! "lastName").

(** A callback that, when it replaces the form, puts a complete one. *)
Definition keepsForm (cb : option (list Effect)) : Prop :=
  match cb with
  | Some body =>
      Forall (λ e, match e with
                   | setFormData f => formDefined f
                   | _ => True
                   end) body
  | None => True
  end.

(** Every callback that may still run keeps the form complete. *)
Definition callbacksKeepForm (c : QueryClient) : Prop :=
  (∀ mid m, mutations c !! mid = Some m →
     keepsForm (mOnSuccess m) ∧ keepsForm (mOnError m))
  ∧ (∀ name, keepsForm (callOnSuccess (mutateOptions (observerOf name c)))
             ∧ keepsForm (callOnError (mutateOptions (observerOf name c)))).

(** Event [e] is a click on one of the deletion gate's own controls. *)
Definition gateEvent (e : Event) : bool :=
  match e with
  | DeleteClick _ | ConfirmClick | CloseModal => true
  | _ => false
  end.

(** The numbers of the mutations in flight have all been handed out. *)
Definition idsFresh (c : QueryClient) : Prop :=
  ∀ mid m, mutations c !! mid = Some m → mid < nextMutationId c.

(** A deletion in flight is the current, pending mutation of the delete
    observer. *)
Definition deleteTracked (c : QueryClient) : Prop :=
  ∀ mid m, mutations c !! mid = Some m → owner m = deleteUserMutation →
    currentMutation (deleteObserver c) = Some mid
    ∧ status (deleteObserver c) = pending.

(** What holds of the mutations even when the submit button's flag lags. *)
Definition lagInvariant (w : World) : Prop :=
  idsFresh (client w) ∧ pendingInFlight (client w)
  ∧ deleteTracked (client w) ∧ deleteGuarded w.

(** * Properties *)

(** ** Form edits *)

Lemma formData_handleInputChange name value w :
  formData (ui (handleInputChange name value w))
  = <[name := value]> (formData (ui w)).
Proof. reflexivity. Qed.

Lemma applyEdits_snoc edits e w :
  applyEdits (edits ++ [e]) w
  = handleInputChange (fst e) (snd e) (applyEdits edits w).
Proof. unfold applyEdits. by rewrite foldl_app. Qed.

Lemma lastValue_snoc k edits e :
  lastValue k (edits ++ [e])
  = if decide (fst e = k) then Some (snd e) else lastValue k edits.
Proof.
  induction edits as [|e' edits IH]; simpl.
  - by destruct (decide (fst e = k)).
  - rewrite IH. destruct (decide (fst e = k)); [done|].
    by destruct (lastValue k edits).
Qed.

Lemma formData_applyEdits edits w k :
  formData (ui (applyEdits edits w)) !! k
  = match lastValue k edits with
    | Some v => Some v
    | None => formData (ui w) !! k
    end.
Proof.
  induction edits as [|e edits IH] using rev_ind; [done|].
  rewrite applyEdits_snoc, formData_handleInputChange, lastValue_snoc.
  rewrite lookup_insert. destruct (decide (fst e = k)); [done|]. apply IH.
Qed.

Lemma handleInputChange_commute n1 v1 n2 v2 w :
  n1 ≠ n2 →
  handleInputChange n1 v1 (handleInputChange n2 v2 w)
  = handleInputChange n2 v2 (handleInputChange n1 v1 w).
Proof.
  intros Hne. unfold handleInputChange, setFormDataWith, withUi; simpl.
  f_equal. f_equal. by apply insert_insert_ne.
Qed.

(** C6: a field edit is a keyed merge. After any sequence of edits every
    field of Form State holds the value of the last edit that named it (or
    its old value if none did) and nothing but Form State has changed; an
    edit leaves every other field as it was; and two edits of distinct
    fields give the same state in either order. *)
Theorem C6_field_edits_keyed_merge (w : World)
    (edits : list (string * string)) :
  (∀ k, formData (ui (applyEdits edits w)) !! k
        = match lastValue k edits with
          | Some v => Some v
          | None => formData (ui w) !! k
          end)
  ∧ (∀ name value k,
       formData (ui (handleInputChange name value w)) !! name = Some value
       ∧ (k ≠ name →
          formData (ui (handleInputChange name value w)) !! k
          = formData (ui w) !! k))
  ∧ (∀ n1 v1 n2 v2, n1 ≠ n2 →
       applyEdits (edits ++ [(n1, v1); (n2, v2)]) w
       = applyEdits (edits ++ [(n2, v2); (n1, v1)]) w)
  ∧ client (applyEdits edits w) = client w.
Proof.
  split; [intros k; apply formData_applyEdits|].
  split.
  { intros name value k. rewrite formData_handleInputChange. split.
    - apply lookup_insert_eq.
    - intros Hne. by apply lookup_insert_ne. }
  split.
  { intros n1 v1 n2 v2 Hne.
    change [(n1, v1); (n2, v2)] with ([(n1, v1)] ++ [(n2, v2)])%list.
    change [(n2, v2); (n1, v1)] with ([(n2, v2)] ++ [(n1, v1)])%list.
    rewrite !app_assoc, !applyEdits_snoc. simpl.
    symmetry. by apply handleInputChange_commute. }
  induction edits as [|e edits IH] using rev_ind; [done|].
  by rewrite applyEdits_snoc.
Qed.

Lemma C6_field_edits_keyed_merge_witness :
  applyEdits [("lastName", "L"); ("firstName", "A"); ("lastName", "B")]
    initialWorld
  = applyEdits [("lastName", "L"); ("lastName", "B"); ("firstName", "A")]
      initialWorld
  ∧ formData (ui (handleInputChange "firstName" "A" initialWorld))
      !! "lastName"
    = formData (ui initialWorld) !! "lastName".
Proof.
  split.
  - apply (proj1 (proj2 (proj2
      (C6_field_edits_keyed_merge initialWorld [("lastName", "L")])))
      "firstName" "A" "lastName" "B").
    discriminate.
  - apply (proj2 (proj1 (proj2
      (C6_field_edits_keyed_merge initialWorld []))
      "firstName" "A" "lastName")).
    discriminate.
Defined.


(** ** Frame properties of the query operations *)

Lemma mutationSide_refetch k c :
  mutationSide (refetch k c) = mutationSide c.
Proof. unfold refetch. by destruct (queries c !! k). Qed.

Lemma mutationSide_fetchIfIdle k c :
  mutationSide (fetchIfIdle k c) = mutationSide c.
Proof.
  unfold fetchIfIdle. destruct (queries c !! k) as [q|]; [|done].
  destruct (isFetching q); [done|]. apply mutationSide_refetch.
Qed.

Lemma mutationSide_observeQuery k fn c :
  mutationSide (observeQuery k fn c) = mutationSide c.
Proof.
  unfold observeQuery. destruct (queries c !! k); [|done].
  apply mutationSide_fetchIfIdle.
Qed.

Lemma mutationSide_invalidateQueriesIn queryKey active c :
  mutationSide (invalidateQueriesIn queryKey active c) = mutationSide c.
Proof.
  unfold invalidateQueriesIn.
  set (c0 := withQueries _ c).
  change (mutationSide c) with (mutationSide c0).
  generalize c0. clear c0.
  induction active as [|k active IH]; intros c0; simpl; [done|].
  rewrite IH. destruct (matchesKey queryKey k); [|done].
  apply mutationSide_refetch.
Qed.

Lemma perform_frame e w :
  mutationSide (client (perform e w)) = mutationSide (client w)
  ∧ untouchedByCallbacks (ui (perform e w)) = untouchedByCallbacks (ui w).
Proof.
  destruct e; simpl; split; try done.
  apply mutationSide_invalidateQueriesIn.
Qed.

Lemma runCallback_frame cb w :
  mutationSide (client (runCallback cb w)) = mutationSide (client w)
  ∧ untouchedByCallbacks (ui (runCallback cb w))
    = untouchedByCallbacks (ui w).
Proof.
  destruct cb as [body|]; simpl; [|done].
  revert w. induction body as [|e body IH]; intros w; simpl; [done|].
  destruct (IH (perform e w)) as [-> ->]. apply perform_frame.
Qed.

Lemma runCallback_observerOf cb name w :
  observerOf name (client (runCallback cb w)) = observerOf name (client w).
Proof.
  pose proof (proj1 (runCallback_frame cb w)) as H.
  unfold mutationSide in H. simplify_eq. by destruct name.
Qed.

(** ** Mutations in flight *)

Lemma observerOf_mutationSide name c c' :
  mutationSide c' = mutationSide c → observerOf name c' = observerOf name c.
Proof. unfold mutationSide. intros H. simplify_eq. by destruct name. Qed.

Lemma mutationsTracked_frame c c' :
  mutationSide c' = mutationSide c → mutationsTracked c → mutationsTracked c'.
Proof.
  intros Hside [H1 H2]. split.
  - intros mid m Hm.
    rewrite (observerOf_mutationSide _ _ _ Hside).
    unfold mutationSide in Hside. simplify_eq.
    replace (nextMutationId c') with (nextMutationId c) by done.
    apply H1. congruence.
  - intros name. rewrite (observerOf_mutationSide _ _ _ Hside). apply H2.
Qed.

Lemma observerOf_setObserver name name' o c :
  observerOf name' (setObserver name o c)
  = if decide (name' = name) then o else observerOf name' c.
Proof. by destruct name, name'. Qed.

Lemma mutationsTracked_mutate {V} name (options : MutationOptions V)
    variables mo w :
  mutationsTracked (client w) →
  status (observerOf name (client w)) ≠ pending →
  retry options = None → onError options = None → callOnError mo = None →
  mutationsTracked (client (mutate name options variables mo w)).
Proof.
  intros [H1 H2] Hidle Hretry Herr Hmo. split.
  - intros mid m. unfold mutate. simpl.
    rewrite observerOf_setObserver.
    rewrite lookup_insert. case_decide as Hmid.
    + intros [= <-]. subst mid. simpl. rewrite decide_True by done.
      simpl. rewrite Hretry, Herr. repeat split; lia || done.
    + intros Hm. destruct (H1 _ _ Hm) as (Hlt & Hcur & Hst & Hr & He).
      case_decide as Hown.
      * rewrite Hown in Hst. done.
      * replace (observerOf (owner m) _) with (observerOf (owner m) (client w))
          by by destruct (owner m).
        repeat split; lia || done.
  - intros name'. unfold mutate. simpl. rewrite observerOf_setObserver.
    case_decide; [done|].
    replace (observerOf name' _) with (observerOf name' (client w))
      by by destruct name'.
    apply H2.
Qed.

Lemma notifyObserver_current name mid st pick w :
  currentMutation (observerOf name (client w)) = Some mid →
  notifyObserver name mid st pick w
  = runCallback (pick (mutateOptions (observerOf name (client w))))
      (withClient (setObserver name
         {| currentMutation := Some mid; status := st;
            mutateOptions := mutateOptions (observerOf name (client w)) |})
         w).
Proof. intros H. unfold notifyObserver. by rewrite decide_True. Qed.

Lemma settleMutation_tracked_side mid ok m w :
  mutationsTracked (client w) →
  mutations (client w) !! mid = Some m →
  mutationSide (client (settleMutation mid ok w))
  = mutationSide
      (settledObserver (owner m) mid (if ok then success else error)
         (client w)).
Proof.
  intros [H1 H2] Hm. destruct (H1 _ _ Hm) as (Hlt & Hcur & Hst & Hr & He).
  unfold settleMutation. rewrite Hm.
  assert (∀ cb, currentMutation (observerOf (owner m)
            (client (withClient (withMutations (delete mid))
               (runCallback cb w)))) = Some mid) as Hcur'.
  { intros cb. simpl.
    replace (observerOf (owner m) (withMutations _ _))
      with (observerOf (owner m) (client (runCallback cb w)))
      by by destruct (owner m).
    by rewrite runCallback_observerOf. }
  destruct ok.
  - rewrite notifyObserver_current by apply Hcur'.
    rewrite (proj1 (runCallback_frame _ _)). simpl.
    pose proof (proj1 (runCallback_frame (mOnSuccess m) w)) as Hside.
    unfold mutationSide in Hside. simplify_eq.
    unfold settledObserver, mutationSide.
    destruct (owner m); simpl; congruence.
  - rewrite Hr. simpl.
    rewrite notifyObserver_current by apply Hcur'.
    rewrite (proj1 (runCallback_frame _ _)). simpl.
    pose proof (proj1 (runCallback_frame (mOnError m) w)) as Hside.
    unfold mutationSide in Hside. simplify_eq.
    unfold settledObserver, mutationSide.
    destruct (owner m); simpl; congruence.
Qed.
Lemma mutationsTracked_settledObserver mid m st c :
  st ≠ pending →
  mutationsTracked c → mutations c !! mid = Some m →
  mutationsTracked (settledObserver (owner m) mid st c).
Proof.
  intros Hst [H1 H2] Hm.
  destruct (H1 _ _ Hm) as (_ & Hcur & _). split.
  - intros mid' m'. unfold settledObserver.
    rewrite observerOf_setObserver.
    replace (mutations (setObserver _ _ _))
      with (delete mid (mutations c)) by by destruct (owner m).
    replace (nextMutationId (setObserver _ _ _))
      with (nextMutationId c) by by destruct (owner m).
    rewrite lookup_delete. case_decide as Hmid; [done|].
    intros Hm'. destruct (H1 _ _ Hm') as (Hlt' & Hcur' & Hst' & Hr' & He').
    case_decide as Hown.
    + rewrite Hown in Hcur'. congruence.
    + replace (observerOf (owner m') (withMutations _ _))
        with (observerOf (owner m') c) by by destruct (owner m').
      done.
  - intros name. unfold settledObserver. rewrite observerOf_setObserver.
    case_decide as Hn; simpl.
    + subst name. apply H2.
    + replace (observerOf name (withMutations _ _))
        with (observerOf name c) by by destruct name.
      apply H2.
Qed.

Lemma mutationsTracked_settle mid ok w :
  mutationsTracked (client w) →
  mutationsTracked (client (settleMutation mid ok w)).
Proof.
  intros Htr.
  destruct (mutations (client w) !! mid) as [m|] eqn:Hm.
  - eapply mutationsTracked_frame.
    + by apply settleMutation_tracked_side.
    + apply mutationsTracked_settledObserver; [by destruct ok|done..].
  - unfold settleMutation. by rewrite Hm.
Qed.

Lemma settleMutation_untouched mid ok w :
  untouchedByCallbacks (ui (settleMutation mid ok w))
  = untouchedByCallbacks (ui w).
Proof.
  unfold settleMutation. destruct (mutations (client w) !! mid) as [m|]; [|done].
  assert (∀ st pick w', untouchedByCallbacks
            (ui (notifyObserver (owner m) mid st pick w'))
          = untouchedByCallbacks (ui w')) as Hn.
  { intros st pick w'. unfold notifyObserver. case_decide; [|done].
    by rewrite (proj2 (runCallback_frame _ _)). }
  destruct ok; [|destruct (Nat.ltb _ _); [done|]];
    rewrite Hn; simpl; apply runCallback_frame.
Qed.

Lemma settleMutation_deleteObserver_pending mid ok w :
  mutationsTracked (client w) →
  status (deleteObserver (client (settleMutation mid ok w))) = pending →
  status (deleteObserver (client w)) = pending.
Proof.
  intros Htr.
  destruct (mutations (client w) !! mid) as [m|] eqn:Hm.
  - pose proof (settleMutation_tracked_side mid ok m w Htr Hm) as Hside.
    pose proof (observerOf_mutationSide deleteUserMutation _ _ Hside) as Ho.
    simpl in Ho. rewrite Ho. unfold settledObserver.
    destruct (owner m), ok; simpl; done.
  - unfold settleMutation. by rewrite Hm.
Qed.

Lemma invariant_frame w w' :
  mutationSide (client w') = mutationSide (client w) →
  isDeleteModalOpen (ui w') = isDeleteModalOpen (ui w) →
  userToDelete (ui w') = userToDelete (ui w) →
  mutationsTracked (client w) ∧ gateConsistent (ui w) ∧ deleteGuarded w →
  mutationsTracked (client w') ∧ gateConsistent (ui w') ∧ deleteGuarded w'.
Proof.
  intros Hside Hopen Htarget (Htr & Hgate & Hdel). split; [|split].
  - by eapply mutationsTracked_frame.
  - unfold gateConsistent in *. by rewrite Hopen, Htarget.
  - unfold deleteGuarded in *. rewrite Htarget.
    pose proof (observerOf_mutationSide deleteUserMutation _ _ Hside) as Ho.
    simpl in Ho. by rewrite Ho.
Qed.

Lemma reachable_invariant w :
  reachable w →
  mutationsTracked (client w) ∧ gateConsistent (ui w) ∧ deleteGuarded w.
Proof.
  induction 1 as [|e w Hreach (Htr & Hgate & Hdel)].
  { split; [|split].
    - split; [intros mid m; simpl|intros []; done].
      unfold observeQuery; simpl. by rewrite lookup_empty.
    - done.
    - intros _. done. }
  destruct e; cbn [dispatch].
  - (* InputChange *) done.
  - (* Submit *)
    unfold onSubmit, submitDisabled, isPending.
    destruct (bool_decide (status (createObserver (client w)) = pending))
      eqn:Hc; [done|].
    destruct (bool_decide (status (updateObserver (client w)) = pending))
      eqn:Hu; [done|]. simpl.
    apply bool_decide_eq_false in Hc, Hu.
    unfold handleUpdate.
    destruct (editingUser (ui w)) as [user|].
    + split; [by apply mutationsTracked_mutate|]. split; [done|].
      exact Hdel.
    + split; [by apply mutationsTracked_mutate|]. split; [done|].
      exact Hdel.
  - (* CancelClick *) done.
  - (* EditClick *) done.
  - (* DeleteClick *)
    unfold onDeleteClick, isPending.
    destruct (bool_decide (status (deleteObserver (client w)) = pending))
      eqn:Hd; [done|].
    apply bool_decide_eq_false in Hd.
    split; [done|]. split; [done|]. intros Hp. done.
  - (* ConfirmClick *)
    unfold handleConfirmDelete.
    destruct (userToDelete (ui w)) as [target|] eqn:Ht; [|done].
    destruct (truthy target); [|done].
    split; [|split; [done|by intros _]].
    apply (mutationsTracked_mutate deleteUserMutation deleteUserOptions
             target noMutateOptions w); try done.
    intros Hp. specialize (Hdel Hp). congruence.
  - (* CloseModal *) split; [done|]. split; [done|by intros _].
  - (* SearchChange *) done.
  - (* SearchClick *)
    unfold executeSearch, setSearchTerm. case_decide; [done|].
    apply (invariant_frame w); try done. simpl.
    apply mutationSide_observeQuery.
  - (* SearchKeyDown *)
    unfold handleSearchKeyPress, executeSearch, setSearchTerm.
    case_decide; [|done]. case_decide; [done|].
    apply (invariant_frame w); try done. simpl.
    apply mutationSide_observeQuery.
  - (* WindowFocus *)
    apply (invariant_frame w); try done. simpl.
    by rewrite !mutationSide_fetchIfIdle.
  - (* MutationSettled *)
    split; [by apply mutationsTracked_settle|].
    pose proof (settleMutation_untouched mid ok w) as Hu.
    unfold untouchedByCallbacks in Hu.
    injection Hu as _ _ Hopen Htarget.
    split.
    + unfold gateConsistent in *. by rewrite Hopen, Htarget.
    + intros Hp. apply settleMutation_deleteObserver_pending in Hp; [|done].
      rewrite Htarget. by apply Hdel.
  - (* QueryResolved *) done.
  - (* QueryRejected *) done.
Qed.

(** ** The deletion gate *)

(** C8: the gate has a single target slot. In every reachable state at most
    one identifier awaits confirmation, the prompt being open exactly when
    one is recorded; and a delete click on a second row while the prompt is
    open replaces the recorded identifier by the new one. *)
Theorem C8_single_deletion_target (w : World) :
  reachable w →
  (∀ a b, awaitingConfirmation w a → awaitingConfirmation w b → a = b)
  ∧ (isDeleteModalOpen (ui w) = true ↔ is_Some (userToDelete (ui w)))
  ∧ (∀ first second,
       awaitingConfirmation w first →
       awaitingConfirmation (dispatch (DeleteClick second) w) second
       ∧ (first ≠ second →
          ¬ awaitingConfirmation (dispatch (DeleteClick second) w) first)).
Proof.
  intros Hreach.
  destruct (reachable_invariant w Hreach) as (Htr & Hgate & Hdel).
  split; [|split].
  - intros a b [_ Ha] [_ Hb]. congruence.
  - unfold gateConsistent in Hgate.
    destruct (userToDelete (ui w)) as [t|].
    + split; [intros _; by eexists|done].
    + rewrite Hgate. split; [done|]. intros [? ?]. done.
  - intros first second [Hopen Hfirst]. cbn [dispatch].
    unfold onDeleteClick, isPending.
    rewrite bool_decide_eq_false_2.
    + split; [done|]. intros Hne [_ Hsnd]. simpl in Hsnd. congruence.
    + intros Hp. specialize (Hdel Hp). congruence.
Qed.

Lemma C8_single_deletion_target_witness :
  awaitingConfirmation
    (dispatch (DeleteClick "b2") (dispatch (DeleteClick "a1") initialWorld))
    "b2".
Proof.
  apply (proj1 (proj2 (proj2
    (C8_single_deletion_target (dispatch (DeleteClick "a1") initialWorld)
       (reachable_step (DeleteClick "a1") initialWorld reachable_initial)))
    "a1" "b2" (conj eq_refl eq_refl))).
Defined.

(** C7: from a state in which the gate awaits confirmation, closing the
    prompt without confirming empties the target slot and closes the
    prompt, and leaves the query client as it was: no request is sent, no
    mutation is started. In particular a delete click followed by a cancel
    leaves the client exactly as before the click. *)
Theorem C7_cancel_returns_to_idle (w : World) (uid : string) :
  (awaitingConfirmation w uid →
   gateIdle (dispatch CloseModal w)
   ∧ client (dispatch CloseModal w) = client w
   ∧ calls (client (dispatch CloseModal w)) = calls (client w)
   ∧ mutations (client (dispatch CloseModal w)) = mutations (client w))
  ∧ (isPending (deleteObserver (client w)) = false →
     awaitingConfirmation (dispatch (DeleteClick uid) w) uid
     ∧ gateIdle (run [DeleteClick uid; CloseModal] w)
     ∧ client (run [DeleteClick uid; CloseModal] w) = client w
     ∧ filter (λ c, isDeleteCall c = true)
         (calls (client (run [DeleteClick uid; CloseModal] w)))
       = filter (λ c, isDeleteCall c = true) (calls (client w))).
Proof.
  split.
  - intros _. repeat split.
  - intros Hp. unfold run. simpl. unfold onDeleteClick. rewrite Hp.
    repeat split.
Qed.

Lemma C7_cancel_returns_to_idle_witness :
  gateIdle (run [DeleteClick "a1"; CloseModal] initialWorld)
  ∧ client (run [DeleteClick "a1"; CloseModal] initialWorld)
    = client initialWorld
  ∧ gateIdle (dispatch CloseModal (dispatch (DeleteClick "a1") initialWorld)).
Proof.
  pose proof (proj2 (C7_cancel_returns_to_idle initialWorld "a1") eq_refl)
    as (Hawait & Hidle & Hclient & _).
  split; [exact Hidle|]. split; [exact Hclient|].
  exact (proj1 (proj1 (C7_cancel_returns_to_idle
    (dispatch (DeleteClick "a1") initialWorld) "a1") Hawait)).
Defined.

(** C10: confirming while no usable target is recorded (nothing recorded,
    or the empty identifier, which the guard takes as absent) does nothing:
    the state is unchanged, so no request is sent, no mutation is started
    and the prompt keeps its state. *)
Theorem C10_confirm_without_target_is_noop (w : World) :
  userToDelete (ui w) = None ∨ userToDelete (ui w) = Some "" →
  dispatch ConfirmClick w = w
  ∧ handleConfirmDelete w = w
  ∧ calls (client (handleConfirmDelete w)) = calls (client w)
  ∧ mutations (client (handleConfirmDelete w)) = mutations (client w)
  ∧ isDeleteModalOpen (ui (handleConfirmDelete w)) = isDeleteModalOpen (ui w).
Proof.
  intros Ht.
  assert (handleConfirmDelete w = w) as Hw.
  { unfold handleConfirmDelete. by destruct Ht as [-> | ->]. }
  cbn [dispatch]. rewrite !Hw. done.
Qed.

Lemma C10_confirm_without_target_is_noop_witness :
  dispatch ConfirmClick (dispatch (DeleteClick "") initialWorld)
  = dispatch (DeleteClick "") initialWorld
  ∧ dispatch ConfirmClick initialWorld = initialWorld.
Proof.
  split.
  - apply (C10_confirm_without_target_is_noop
             (dispatch (DeleteClick "") initialWorld)).
    right. reflexivity.
  - apply (C10_confirm_without_target_is_noop initialWorld).
    left. reflexivity.
Defined.

(** ** Failed mutations *)




(** ** Invalidation *)

Lemma refetch_lookup k' c k q :
  queries c !! k = Some q →
  ∃ q', queries (refetch k' c) !! k = Some q'
        ∧ isInvalidated q' = isInvalidated q
        ∧ (isFetching q = true → isFetching q' = true)
        ∧ (k = k' → isFetching q' = true).
Proof.
  intros Hq. unfold refetch.
  destruct (queries c !! k') as [q0|] eqn:Hq0; simpl.
  - rewrite lookup_insert. case_decide as Hk.
    + subst k'. simplify_eq. eexists. split; [done|]. by repeat split.
    + exists q. by repeat split.
  - exists q. repeat split; try done. intros ->. congruence.
Qed.

Lemma refetch_fold_lookup (P : QueryKey → bool) active c k q :
  queries c !! k = Some q →
  ∃ q', queries (foldl (λ c k, if P k then refetch k c else c) c active)
          !! k = Some q'
        ∧ isInvalidated q' = isInvalidated q
        ∧ (isFetching q = true → isFetching q' = true)
        ∧ (P k = true → k ∈ active → isFetching q' = true).
Proof.
  revert c q. induction active as [|k' active IH]; intros c q Hq; simpl.
  - exists q. repeat split; try done. intros _ Hin. by apply elem_of_nil in Hin.
  - destruct (P k') eqn:HP.
    + destruct (refetch_lookup k' c k q Hq) as (q1 & Hq1 & Hi1 & Hf1 & Hk1).
      destruct (IH _ _ Hq1) as (q2 & Hq2 & Hi2 & Hf2 & Hk2).
      exists q2. split; [done|]. split; [congruence|].
      split; [tauto|]. intros HPk Hin.
      apply elem_of_cons in Hin as [->|Hin]; [|by apply Hk2].
      apply Hf2. by apply Hk1.
    + destruct (IH _ _ Hq) as (q2 & Hq2 & Hi2 & Hf2 & Hk2).
      exists q2. split; [done|]. split; [done|]. split; [done|].
      intros HPk Hin.
      apply elem_of_cons in Hin as [->|Hin]; [congruence|by apply Hk2].
Qed.

Lemma invalidateQueriesIn_lookup queryKey active c k q :
  queries c !! k = Some q →
  ∃ q', queries (invalidateQueriesIn queryKey active c) !! k = Some q'
        ∧ (queryKey `prefix_of` k → isInvalidated q' = true)
        ∧ (isInvalidated q = true → isInvalidated q' = true)
        ∧ (isFetching q = true → isFetching q' = true)
        ∧ (queryKey `prefix_of` k → k ∈ active → isFetching q' = true).
Proof.
  intros Hq. unfold invalidateQueriesIn.
  set (c0 := withQueries _ c).
  assert (queries c0 !! k
          = Some (if matchesKey queryKey k then invalidate q else q)) as Hq0.
  { subst c0. simpl. rewrite map_lookup_imap, Hq. done. }
  destruct (refetch_fold_lookup (matchesKey queryKey) active c0 k _ Hq0)
    as (q' & Hq' & Hi & Hf & Hk).
  exists q'. split; [done|]. unfold matchesKey in *.
  split; [|split; [|split]].
  - intros Hp. rewrite Hi. by rewrite bool_decide_eq_true_2.
  - intros Hinv. rewrite Hi. by case_bool_decide.
  - intros Hfe. apply Hf. by case_bool_decide.
  - intros Hp Hin. apply Hk; [|done]. by apply bool_decide_eq_true_2.
Qed.

(** ** A mutation stays in flight until its outcome arrives *)

Lemma awaitingOutcome_frame name mid m mo w w' :
  mutationSide (client w') = mutationSide (client w) →
  (name = deleteUserMutation → gateIdle w → gateIdle w') →
  awaitingOutcome name mid m mo w → awaitingOutcome name mid m mo w'.
Proof.
  intros Hside Hgate (Hlt & Hm & Hown & Hobs & Hidle).
  rewrite <- (observerOf_mutationSide name _ _ Hside) in Hobs.
  unfold mutationSide in Hside. simplify_eq.
  repeat split; try done; try congruence; try (by apply Hgate; auto).
Qed.

Lemma awaitingOutcome_mutate {V} name' (options : MutationOptions V)
    variables mo' name mid m mo w :
  name' ≠ name →
  awaitingOutcome name mid m mo w →
  awaitingOutcome name mid m mo (mutate name' options variables mo' w).
Proof.
  intros Hne (Hlt & Hm & Hown & Hobs & Hidle).
  split; [|split; [|split; [|split]]].
  - simpl. destruct name'; simpl; lia.
  - simpl. rewrite lookup_insert_ne by lia. done.
  - done.
  - simpl. rewrite observerOf_setObserver.
    rewrite decide_False by done. rewrite <- Hobs. by destruct name.
  - done.
Qed.

Lemma awaitingOutcome_runCallback cb name mid m mo w :
  awaitingOutcome name mid m mo w →
  awaitingOutcome name mid m mo (runCallback cb w).
Proof.
  destruct (runCallback_frame cb w) as [Hside Hu].
  apply awaitingOutcome_frame; [done|].
  intros _ [Hopen Htarget]. unfold untouchedByCallbacks in Hu.
  injection Hu as _ _ Hopen' Htarget'. split; congruence.
Qed.

Lemma awaitingOutcome_notifyObserver name' mid' st pick name mid m mo w :
  mid' ≠ mid →
  awaitingOutcome name mid m mo w →
  awaitingOutcome name mid m mo (notifyObserver name' mid' st pick w).
Proof.
  intros Hne Haw. unfold notifyObserver. case_decide as Hcur; [|done].
  apply awaitingOutcome_runCallback.
  destruct Haw as (Hlt & Hm & Hown & Hobs & Hidle).
  assert (name' ≠ name) as Hname.
  { intros ->. rewrite Hobs in Hcur. simpl in Hcur. congruence. }
  split; [|split; [|split; [|split]]].
  - simpl. by destruct name'.
  - simpl. by destruct name'.
  - done.
  - simpl. rewrite observerOf_setObserver. by rewrite decide_False.
  - done.
Qed.

Lemma awaitingOutcome_dropOther mid' name mid m mo w :
  mid' ≠ mid →
  awaitingOutcome name mid m mo w →
  awaitingOutcome name mid m mo (withClient (withMutations (delete mid')) w).
Proof.
  intros Hne (Hlt & Hm & Hown & Hobs & Hidle).
  split; [|split; [|split; [|split]]]; simpl; try done;
    try (by rewrite lookup_delete_ne);
    try (rewrite <- Hobs; by destruct name).
Qed.

Lemma awaitingOutcome_settleOther mid' ok name mid m mo w :
  mid' ≠ mid →
  awaitingOutcome name mid m mo w →
  awaitingOutcome name mid m mo (settleMutation mid' ok w).
Proof.
  intros Hne Haw. unfold settleMutation.
  destruct (mutations (client w) !! mid') as [m'|]; [|done].
  destruct ok; [|destruct (Nat.ltb _ _)].
  - apply awaitingOutcome_notifyObserver; [done|].
    apply awaitingOutcome_dropOther; [done|].
    by apply awaitingOutcome_runCallback.
  - destruct Haw as (Hlt & Hm & Hown & Hobs & Hidle).
    split; [|split; [|split; [|split]]]; simpl; try done;
      try (by rewrite lookup_insert_ne);
      try (rewrite <- Hobs; by destruct name).
  - apply awaitingOutcome_notifyObserver; [done|].
    apply awaitingOutcome_dropOther; [done|].
    by apply awaitingOutcome_runCallback.
Qed.

Lemma awaitingOutcome_dispatch e name mid m mo w :
  settles mid e = false →
  awaitingOutcome name mid m mo w →
  awaitingOutcome name mid m mo (dispatch e w).
Proof.
  intros Hset Haw. pose proof Haw as (Hlt & Hm & Hown & Hobs & Hidle).
  destruct e; cbn [dispatch].
  - (* InputChange *) revert Haw. by apply awaitingOutcome_frame.
  - (* Submit *)
    unfold onSubmit, submitDisabled.
    destruct (isPending (createObserver (client w))
              || isPending (updateObserver (client w))) eqn:Hdis; [done|].
    apply orb_false_elim in Hdis as [Hc Hu].
    assert (name = deleteUserMutation) as ->.
    { destruct name; [| done |]; simpl in Hobs;
        unfold isPending in *; rewrite Hobs in *; done. }
    unfold handleUpdate, handleSubmit.
    destruct (editingUser (ui w));
      by apply awaitingOutcome_mutate.
  - (* CancelClick *) revert Haw. by apply awaitingOutcome_frame.
  - (* EditClick *) revert Haw. by apply awaitingOutcome_frame.
  - (* DeleteClick *)
    unfold onDeleteClick.
    destruct (isPending (deleteObserver (client w))) eqn:Hp; [done|].
    revert Haw. apply awaitingOutcome_frame; [done|].
    intros ->. simpl in Hobs. unfold isPending in Hp.
    rewrite Hobs in Hp. done.
  - (* ConfirmClick *)
    unfold handleConfirmDelete.
    destruct (userToDelete (ui w)) as [target|] eqn:Ht; [|done].
    destruct (truthy target); [|done].
    assert (name ≠ deleteUserMutation) as Hname.
    { intros ->. destruct (Hidle eq_refl) as [_ Hnone]. congruence. }
    apply (awaitingOutcome_frame name mid m mo
             (mutate deleteUserMutation deleteUserOptions target
                noMutateOptions w)); [done|done|].
    apply awaitingOutcome_mutate; [done|done].
  - (* CloseModal *) revert Haw. by apply awaitingOutcome_frame.
  - (* SearchChange *) revert Haw. by apply awaitingOutcome_frame.
  - (* SearchClick *)
    unfold executeSearch, setSearchTerm. case_decide; [done|].
    revert Haw. apply awaitingOutcome_frame; [|done]. simpl.
    apply mutationSide_observeQuery.
  - (* SearchKeyDown *)
    unfold handleSearchKeyPress, executeSearch, setSearchTerm.
    case_decide; [|done]. case_decide; [done|].
    revert Haw. apply awaitingOutcome_frame; [|done]. simpl.
    apply mutationSide_observeQuery.
  - (* WindowFocus *)
    revert Haw. apply awaitingOutcome_frame; [|done]. simpl.
    by rewrite !mutationSide_fetchIfIdle.
  - (* MutationSettled *)
    simpl in Hset. apply bool_decide_eq_false in Hset.
    by apply awaitingOutcome_settleOther.
  - (* QueryResolved *) revert Haw. by apply awaitingOutcome_frame.
  - (* QueryRejected *) revert Haw. by apply awaitingOutcome_frame.
Qed.

Lemma awaitingOutcome_run evs name mid m mo w :
  unsettled mid evs →
  awaitingOutcome name mid m mo w →
  awaitingOutcome name mid m mo (run evs w).
Proof.
  intros Hevs. revert w.
  induction Hevs as [|e evs He Hevs IH]; intros w Haw; [done|].
  apply IH. by apply awaitingOutcome_dispatch.
Qed.

Lemma settleMutation_success name mid m mo w :
  awaitingOutcome name mid m mo w →
  settleMutation mid true w
  = runCallback (callOnSuccess mo)
      (withClient (settledObserver name mid success)
         (runCallback (mOnSuccess m) w)).
Proof.
  intros (Hlt & Hm & Hown & Hobs & Hidle).
  unfold settleMutation. rewrite Hm, Hown.
  assert (observerOf name (client (runCallback (mOnSuccess m) w))
          = {| currentMutation := Some mid; status := pending;
               mutateOptions := mo |}) as Hobs'.
  { by rewrite runCallback_observerOf. }
  rewrite notifyObserver_current.
  - simpl.
    replace (observerOf name (withMutations _ _))
      with (observerOf name (client (runCallback (mOnSuccess m) w)))
      by by destruct name.
    unfold settledObserver. rewrite Hobs'. cbn [mutateOptions].
    f_equal. unfold withClient. simpl. by rewrite Hobs'.
  - simpl.
    replace (observerOf name (withMutations _ _))
      with (observerOf name (client (runCallback (mOnSuccess m) w)))
      by by destruct name.
    by rewrite Hobs'.
Qed.

(** ** Successful mutations *)

Lemma invalidatedBetween_once queryKey (f : World → World) w :
  (∀ w', queries (client (f w')) = queries (client w')) →
  invalidatedBetween queryKey w
    (f (perform (invalidateQueries queryKey) w)).
Proof.
  intros Hf k q Hq Hp. rewrite Hf. simpl.
  destruct (invalidateQueriesIn_lookup queryKey (activeKeys (ui w))
              (client w) k q Hq) as (q' & Hq' & Hi & _ & _ & Hfe).
  exists q'. split; [done|]. split; [by apply Hi|]. by apply Hfe.
Qed.

(** C2: in create mode with the submit button enabled, submitting sends
    [createUser] with the current Form State; whatever else happens until
    the outcome arrives, when that request succeeds every cached query
    under the [users] key is marked invalidated (the observed ones being
    refetched) and Form State is reset to empty first and last names. *)
Theorem C2_create_success (w : World) (evs : list Event) :
  editingUser (ui w) = None →
  submitDisabled w = false →
  unsettled (nextMutationId (client w)) evs →
  let issued := dispatch Submit w in
  let before := run evs issued in
  let after :=
    dispatch (MutationSettled (nextMutationId (client w)) true) before in
  calls (client issued) = createUser (formData (ui w)) :: calls (client w)
  ∧ mutations (client before) !! nextMutationId (client w)
    = Some (buildMutation createUserMutation createUserOptions
              (formData (ui w)))
  ∧ invalidatedBetween ["users"] before after
  ∧ formData (ui after) = emptyForm.
Proof.
  intros Hmode Hen Hevs issued before after.
  assert (issued = handleSubmit w) as Hissued.
  { subst issued. cbn [dispatch]. unfold onSubmit. by rewrite Hen, Hmode. }
  assert (awaitingOutcome createUserMutation (nextMutationId (client w))
            (buildMutation createUserMutation createUserOptions
               (formData (ui w))) noMutateOptions before) as Haw.
  { subst before. apply awaitingOutcome_run; [done|]. rewrite Hissued.
    repeat split; simpl; try done; try lia.
    by rewrite lookup_insert_eq. }
  split; [by rewrite Hissued|].
  split; [by destruct Haw as (_ & ? & _)|].
  subst after. cbn [dispatch].
  rewrite (settleMutation_success _ _ _ _ _ Haw).
  split; [|done].
  apply (invalidatedBetween_once ["users"]
           (λ w', withClient (settledObserver createUserMutation
                                (nextMutationId (client w)) success)
                    (setFormDataTo emptyForm w'))).
  done.
Qed.

Lemma C2_create_success_witness :
  formData (ui (run [InputChange "firstName" "Ada"; Submit;
                     InputChange "lastName" "x"; MutationSettled 0 true]
                  initialWorld))
  = emptyForm.
Proof.
  apply (C2_create_success
           (dispatch (InputChange "firstName" "Ada") initialWorld)
           [InputChange "lastName" "x"]).
  - reflexivity.
  - reflexivity.
  - repeat constructor.
Defined.



(** C1: from a state in which the gate awaits confirmation of a non-empty
    identifier, confirming sends [deleteUser] for it and at once closes the
    prompt and empties the target slot; whatever else happens until the
    outcome arrives, when that request succeeds every cached query under
    the [users] key and every one under [users, search] is marked
    invalidated (the observed ones being refetched), and the gate is still
    idle: no target recorded, prompt closed. *)
Theorem C1_delete_success (w : World) (target : string) (evs : list Event) :
  awaitingConfirmation w target →
  target ≠ "" →
  unsettled (nextMutationId (client w)) evs →
  let issued := dispatch ConfirmClick w in
  let before := run evs issued in
  let after :=
    dispatch (MutationSettled (nextMutationId (client w)) true) before in
  calls (client issued) = deleteUser target :: calls (client w)
  ∧ gateIdle issued
  ∧ invalidatedBetween ["users"] before after
  ∧ invalidatedBetween ["users"; "search"] before after
  ∧ userToDelete (ui after) = None
  ∧ isDeleteModalOpen (ui after) = false.
Proof.
  intros [Hopen Htarget] Hne Hevs issued before after.
  assert (truthy target = true) as Htruthy.
  { unfold truthy. apply negb_true_iff. by apply String.eqb_neq. }
  assert (issued
          = setUserToDelete None (setIsDeleteModalOpen false
              (mutate deleteUserMutation deleteUserOptions target
                 noMutateOptions w))) as Hissued.
  { subst issued. cbn [dispatch]. unfold handleConfirmDelete.
    by rewrite Htarget, Htruthy. }
  assert (awaitingOutcome deleteUserMutation (nextMutationId (client w))
            (buildMutation deleteUserMutation deleteUserOptions target)
            noMutateOptions before) as Haw.
  { subst before. apply awaitingOutcome_run; [done|]. rewrite Hissued.
    repeat split; simpl; try done; try lia.
    by rewrite lookup_insert_eq. }
  split; [by rewrite Hissued|].
  split; [by rewrite Hissued|].
  destruct Haw as (Hlt & Hm & Hown & Hobs & Hidle).
  destruct (Hidle eq_refl) as [Hclosed Hnone].
  subst after. cbn [dispatch].
  rewrite (settleMutation_success deleteUserMutation _ _ noMutateOptions
             before) by done.
  split; [|split; [|done]].
  - intros k q Hq Hp. simpl.
    destruct (invalidateQueriesIn_lookup ["users"] (activeKeys (ui before))
                (client before) k q Hq) as (q1 & Hq1 & Hi1 & _ & _ & Hf1).
    destruct (invalidateQueriesIn_lookup ["users"; "search"]
                (activeKeys (ui before)) _ k q1 Hq1)
      as (q2 & Hq2 & _ & Hi2 & Hf2 & _).
    exists q2. split; [exact Hq2|]. split; [by apply Hi2, Hi1|].
    intros Hin. by apply Hf2, Hf1.
  - intros k q Hq Hp. simpl.
    destruct (invalidateQueriesIn_lookup ["users"] (activeKeys (ui before))
                (client before) k q Hq) as (q1 & Hq1 & _).
    destruct (invalidateQueriesIn_lookup ["users"; "search"]
                (activeKeys (ui before)) _ k q1 Hq1)
      as (q2 & Hq2 & Hi2 & _ & _ & Hf2).
    exists q2. split; [exact Hq2|]. split; [by apply Hi2|].
    intros Hin. by apply Hf2.
Qed.

Lemma C1_delete_success_witness :
  userToDelete (ui (run [DeleteClick "a1"; ConfirmClick;
                         SearchChange "J"; MutationSettled 0 true]
                      initialWorld)) = None
  ∧ isDeleteModalOpen (ui (run [DeleteClick "a1"; ConfirmClick;
                         SearchChange "J"; MutationSettled 0 true]
                      initialWorld)) = false.
Proof.
  pose proof (C1_delete_success
    (dispatch (DeleteClick "a1") initialWorld) "a1" [SearchChange "J"]
    (conj eq_refl eq_refl) ltac:(discriminate)
    ltac:(repeat constructor))
    as (_ & _ & _ & _ & Hnone & Hclosed).
  split; [exact Hnone|exact Hclosed].
Defined.

(** ** The requests of cached queries *)

Lemma queryFns_refetch k c : queryFns (refetch k c) = queryFns c.
Proof.
  unfold refetch. destruct (queries c !! k) as [q|] eqn:Hq; [|done].
  unfold queryFns. simpl. rewrite fmap_insert. apply insert_id.
  by rewrite lookup_fmap, Hq.
Qed.

Lemma queryFns_fetchIfIdle k c : queryFns (fetchIfIdle k c) = queryFns c.
Proof.
  unfold fetchIfIdle. destruct (queries c !! k) as [q|]; [|done].
  destruct (isFetching q); [done|]. apply queryFns_refetch.
Qed.

Lemma queryFns_observeQuery k fn c :
  queryFns (observeQuery k fn c)
  = match queryFns c !! k with
    | Some _ => queryFns c
    | None => <[k := fn]> (queryFns c)
    end.
Proof.
  unfold observeQuery. unfold queryFns at 2. rewrite lookup_fmap.
  destruct (queries c !! k) as [q|]; simpl.
  - apply queryFns_fetchIfIdle.
  - unfold queryFns. simpl. by rewrite fmap_insert.
Qed.

Lemma queryFns_invalidateQueriesIn queryKey active c :
  queryFns (invalidateQueriesIn queryKey active c) = queryFns c.
Proof.
  unfold invalidateQueriesIn.
  set (c0 := withQueries _ c).
  assert (queryFns c0 = queryFns c) as <-.
  { subst c0. unfold queryFns. simpl. apply map_eq. intros k.
    rewrite !lookup_fmap, map_lookup_imap.
    destruct (queries c !! k) as [q|]; simpl; [|done].
    by destruct (matchesKey queryKey k). }
  generalize c0. clear c0.
  induction active as [|k active IH]; intros c0; simpl; [done|].
  rewrite IH. destruct (matchesKey queryKey k); [|done].
  apply queryFns_refetch.
Qed.

Lemma queryFns_runCallback cb w :
  queryFns (client (runCallback cb w)) = queryFns (client w).
Proof.
  destruct cb as [body|]; simpl; [|done].
  revert w. induction body as [|e body IH]; intros w; simpl; [done|].
  rewrite IH. destruct e; simpl; try done.
  apply queryFns_invalidateQueriesIn.
Qed.

Lemma queryFns_settleMutation mid ok w :
  queryFns (client (settleMutation mid ok w)) = queryFns (client w).
Proof.
  unfold settleMutation.
  destruct (mutations (client w) !! mid) as [m|]; [|done].
  assert (∀ st pick w', queryFns (client (notifyObserver (owner m) mid
                                            st pick w'))
                        = queryFns (client w')) as Hn.
  { intros st pick w'. unfold notifyObserver. case_decide; [|done].
    rewrite queryFns_runCallback. simpl. by destruct (owner m). }
  destruct ok; [|destruct (Nat.ltb _ _); [done|]];
    rewrite Hn; simpl; apply queryFns_runCallback.
Qed.

Lemma queryFns_resolved (k : QueryKey) (f : Query → Query)
    (qs : gmap QueryKey Query) :
  (∀ q, queryFn (f q) = queryFn q) →
  queryFn <$> (match qs !! k with
               | Some q => if isFetching q then <[k := f q]> qs else qs
               | None => qs
               end)
  = queryFn <$> qs.
Proof.
  intros Hf. destruct (qs !! k) as [q|] eqn:Hq; [|done].
  destruct (isFetching q); [|done].
  rewrite fmap_insert. apply insert_id. by rewrite lookup_fmap, Hq, Hf.
Qed.

Lemma queriesBuilt_frame w w' :
  queryFns (client w') = queryFns (client w) →
  searchTerm (ui w') = searchTerm (ui w) →
  queriesBuilt w → queriesBuilt w'.
Proof. unfold queriesBuilt. intros -> ->. done. Qed.

Lemma queriesBuilt_setSearchTerm t w :
  queriesBuilt w → queriesBuilt (setSearchTerm t w).
Proof.
  intros (Hu & Hs & Ht). unfold setSearchTerm. case_decide; [done|].
  unfold queriesBuilt. simpl. rewrite queryFns_observeQuery.
  destruct (queryFns (client w) !! searchKey t) as [fn|] eqn:Hfn.
  - split; [done|]. split; [done|]. by rewrite Hfn, (Hs t fn).
  - split; [by rewrite lookup_insert_ne|].
    split; [|by rewrite lookup_insert_eq].
    intros t' fn'. rewrite lookup_insert. case_decide as Hk.
    + intros [= <-]. by injection Hk as ->.
    + apply Hs.
Qed.

Lemma reachable_queriesBuilt w : reachable w → queriesBuilt w.
Proof.
  induction 1 as [|e w Hreach IH].
  { split; [done|]. split; [|done].
    intros t fn.
    assert (queryFns (client initialWorld)
            = <[searchKey "" := searchQueryFn ""]>
                (<[usersKey := usersQueryFn]> ∅)) as -> by reflexivity.
    rewrite lookup_insert. case_decide as Hk.
    - injection Hk as <-. by intros [= <-].
    - rewrite lookup_insert_ne by done. by rewrite lookup_empty. }
  destruct e; cbn [dispatch].
  - done.
  - unfold onSubmit. destruct (submitDisabled w); [done|].
    unfold handleUpdate.
    destruct (editingUser (ui w));
      (revert IH; apply queriesBuilt_frame; [|done]);
      unfold queryFns; simpl.
    + done.
    + done.
  - done.
  - done.
  - unfold onDeleteClick.
    by destruct (isPending (deleteObserver (client w))).
  - unfold handleConfirmDelete.
    destruct (userToDelete (ui w)) as [target|]; [|done].
    destruct (truthy target); [|done].
    revert IH. apply queriesBuilt_frame; [|done].
    unfold queryFns. done.
  - done.
  - done.
  - by apply queriesBuilt_setSearchTerm.
  - unfold handleSearchKeyPress. case_decide; [|done].
    by apply queriesBuilt_setSearchTerm.
  - revert IH. apply queriesBuilt_frame; [|done]. simpl.
    by rewrite !queryFns_fetchIfIdle.
  - revert IH. apply queriesBuilt_frame.
    + apply queryFns_settleMutation.
    + pose proof (settleMutation_untouched mid ok w) as Hu.
      unfold untouchedByCallbacks in Hu. by injection Hu.
  - revert IH. apply queriesBuilt_frame; [|done].
    unfold queryFns. simpl. by apply queryFns_resolved.
  - revert IH. apply queriesBuilt_frame; [|done].
    unfold queryFns. simpl. by apply queryFns_resolved.
Qed.

(** ** Search *)

Lemma answerQuery_queries backend k w q :
  queries (client w) !! k = Some q →
  isFetching q = true →
  queries (client (answerQuery backend k w))
  = <[k := resolveQuery (backend (queryFn q)) q]> (queries (client w))
  ∧ ui (answerQuery backend k w) = ui w.
Proof.
  intros Hq Hf. unfold answerQuery. rewrite Hq. simpl. by rewrite Hq, Hf.
Qed.

Lemma answerQuery_search backend w q :
  reachable w →
  queries (client w) !! searchKey (searchTerm (ui w)) = Some q →
  isFetching q = true →
  searchResults (answerQuery backend (searchKey (searchTerm (ui w))) w)
  = Some (backend (searchQueryFn (searchTerm (ui w)))).
Proof.
  intros Hreach Hq Hf.
  destruct (reachable_queriesBuilt w Hreach) as (_ & _ & Hfn).
  unfold queryFns in Hfn. rewrite lookup_fmap, Hq in Hfn.
  injection Hfn as Hfn.
  destruct (answerQuery_queries backend _ w q Hq Hf) as [Hqs Hui].
  unfold searchResults. rewrite Hqs, Hui, lookup_insert_eq. simpl.
  by rewrite Hfn.
Qed.

(** C4: with an empty committed term the search query makes the very
    request of the full-list query, [getUsers], not a request of its own;
    so when the backend answers the two fetches, the search results are
    its answer to [getUsers], the same list as the full-list query holds,
    and that list is what the table shows. *)
Theorem C4_empty_term_fetches_full_list (w : World)
    (backend : ApiCall → list User) :
  reachable w →
  searchTerm (ui w) = "" →
  searchQueryFn "" = usersQueryFn
  ∧ queryFn <$> queries (client w) !! searchKey "" = Some getUsers
  ∧ queryFn <$> queries (client w) !! usersKey = Some getUsers
  ∧ (∀ q, queries (client w) !! searchKey "" = Some q →
       isFetching q = true →
       searchResults (answerQuery backend (searchKey "") w)
       = Some (backend getUsers))
  ∧ (∀ q q', queries (client w) !! searchKey "" = Some q →
       isFetching q = true →
       queries (client w) !! usersKey = Some q' →
       isFetching q' = true →
       let w' := answerQuery backend usersKey
                   (answerQuery backend (searchKey "") w) in
       searchResults w' = users w'
       ∧ users w' = Some (backend getUsers)
       ∧ render w' = Table (backend getUsers)).
Proof.
  intros Hreach Hterm.
  pose proof (reachable_queriesBuilt w Hreach) as (Hu & Hs & Ht).
  rewrite Hterm in Ht. unfold queryFns in Hu, Ht.
  rewrite lookup_fmap in Hu, Ht.
  split; [done|]. split; [exact Ht|]. split; [exact Hu|].
  split.
  - intros q Hq Hf. rewrite <- Hterm in Hq |- *.
    rewrite (answerQuery_search backend w q Hreach Hq Hf).
    by rewrite Hterm.
  - intros q q' Hq Hf Hq' Hf' w'.
    destruct (answerQuery_queries backend (searchKey "") w q Hq Hf)
      as [Hqs1 Hui1].
    assert (queries (client (answerQuery backend (searchKey "") w))
              !! usersKey = Some q') as Hq1.
    { rewrite Hqs1. by rewrite lookup_insert_ne. }
    destruct (answerQuery_queries backend usersKey _ q' Hq1 Hf')
      as [Hqs2 Hui2].
    rewrite Hq in Ht. rewrite Hq' in Hu. simpl in Ht, Hu.
    injection Ht as Ht. injection Hu as Hu.
    assert (searchResults w' = Some (backend getUsers)) as Hsr.
    { unfold searchResults. subst w'. rewrite Hqs2, Hui2, Hui1, Hterm.
      rewrite lookup_insert_ne by done. rewrite Hqs1, lookup_insert_eq.
      simpl. by rewrite Ht. }
    assert (users w' = Some (backend getUsers)) as Hus.
    { unfold users. subst w'. rewrite Hqs2, lookup_insert_eq. simpl.
      by rewrite Hu. }
    split; [congruence|]. split; [done|].
    unfold render. rewrite Hsr. subst w'.
    rewrite Hqs2, Hui2, Hui1, Hterm, lookup_insert_eq.
    rewrite lookup_insert_ne by done. rewrite Hqs1, lookup_insert_eq.
    done.
Qed.

Lemma C4_empty_term_fetches_full_list_witness :
  searchResults
    (answerQuery
       (λ c, match c with
             | getUsers => [mkUser "a1" "Ada" "Lovelace"]
             | _ => []
             end)
       (searchKey "") initialWorld)
  = Some [mkUser "a1" "Ada" "Lovelace"].
Proof.
  apply (proj1 (proj2 (proj2 (proj2
    (C4_empty_term_fetches_full_list initialWorld
       (λ c, match c with
             | getUsers => [mkUser "a1" "Ada" "Lovelace"]
             | _ => []
             end)
       reachable_initial eq_refl))))
    (newQuery getUsers) eq_refl eq_refl).
Defined.

(** ** The live input box does not reach the table *)

Lemma forgetInput_perform e w :
  forgetInput (perform e w) = perform e (forgetInput w).
Proof. by destruct e. Qed.

Lemma forgetInput_runCallback cb w :
  forgetInput (runCallback cb w) = runCallback cb (forgetInput w).
Proof.
  destruct cb as [body|]; simpl; [|done].
  revert w. induction body as [|e body IH]; intros w; simpl; [done|].
  by rewrite IH, forgetInput_perform.
Qed.

Lemma forgetInput_notifyObserver name mid st pick w :
  forgetInput (notifyObserver name mid st pick w)
  = notifyObserver name mid st pick (forgetInput w).
Proof.
  unfold notifyObserver. simpl. case_decide; [|done].
  by rewrite forgetInput_runCallback.
Qed.

Lemma forgetInput_settleMutation mid ok w :
  forgetInput (settleMutation mid ok w)
  = settleMutation mid ok (forgetInput w).
Proof.
  unfold settleMutation. simpl.
  destruct (mutations (client w) !! mid) as [m|]; [|done].
  destruct ok; [|destruct (Nat.ltb _ _); [done|]];
    rewrite forgetInput_notifyObserver; f_equal;
    change (withClient (withMutations (delete mid)) (forgetInput ?x))
      with (forgetInput (withClient (withMutations (delete mid)) x));
    by rewrite <- forgetInput_runCallback.
Qed.

Lemma forgetInput_dispatch e w :
  commits e = false →
  forgetInput (dispatch e w) = forgetInput (dispatch e (forgetInput w)).
Proof.
  intros Hc. destruct e; cbn [dispatch]; try done.
  - unfold onSubmit. change (submitDisabled (forgetInput w))
      with (submitDisabled w).
    destruct (submitDisabled w); [done|]. simpl.
    unfold handleUpdate. simpl. by destruct (editingUser (ui w)).
  - unfold onDeleteClick. simpl.
    by destruct (isPending (deleteObserver (client w))).
  - unfold handleConfirmDelete. simpl.
    destruct (userToDelete (ui w)) as [target|]; [|done].
    by destruct (truthy target).
  - simpl in Hc. apply bool_decide_eq_false in Hc.
    unfold handleSearchKeyPress. by rewrite !decide_False.
  - by rewrite !forgetInput_settleMutation.
Qed.

Lemma forgetInput_typing e w :
  isTyping e = true → forgetInput (dispatch e w) = forgetInput w.
Proof.
  intros Ht. destruct e; try done. simpl in *.
  unfold handleSearchKeyPress. apply negb_true_iff in Ht.
  apply bool_decide_eq_false in Ht. by rewrite decide_False.
Qed.

Lemma forgetInput_run evs a b :
  Forall (λ e, commits e = false) evs →
  forgetInput a = forgetInput b →
  forgetInput (run evs a) = forgetInput (run evs b).
Proof.
  intros Hevs. revert a b.
  induction Hevs as [|e evs He Hevs IH]; intros a b Hab; [done|].
  simpl. apply IH.
  rewrite (forgetInput_dispatch e a He), (forgetInput_dispatch e b He).
  by rewrite Hab.
Qed.

Lemma forgetInput_withoutTyping evs w :
  Forall (λ e, commits e = false) evs →
  forgetInput (run evs w) = forgetInput (run (withoutTyping evs) w).
Proof.
  intros Hevs. revert w.
  induction Hevs as [|e evs He Hevs IH]; intros w; [done|].
  unfold withoutTyping. rewrite filter_cons. simpl.
  destruct (isTyping e) eqn:Ht.
  - rewrite decide_False by done. rewrite IH.
    apply forgetInput_run.
    + apply Forall_forall. intros e' He'.
      apply list_elem_of_filter in He' as [_ He'].
      revert e' He'. by apply Forall_forall.
    + by apply forgetInput_typing.
  - rewrite decide_True by done. simpl. apply IH.
Qed.

Lemma searchTerm_dispatch e w :
  commits e = false → searchTerm (ui (dispatch e w)) = searchTerm (ui w).
Proof.
  intros Hc. destruct e; cbn [dispatch]; try done.
  - unfold onSubmit. destruct (submitDisabled w); [done|].
    unfold handleUpdate. by destruct (editingUser (ui w)).
  - unfold onDeleteClick.
    by destruct (isPending (deleteObserver (client w))).
  - unfold handleConfirmDelete.
    destruct (userToDelete (ui w)) as [target|]; [|done].
    by destruct (truthy target).
  - simpl in Hc. apply bool_decide_eq_false in Hc.
    unfold handleSearchKeyPress. by rewrite decide_False.
  - pose proof (settleMutation_untouched mid ok w) as Hu.
    unfold untouchedByCallbacks in Hu. by injection Hu.
Qed.

Lemma searchTerm_run evs w :
  Forall (λ e, commits e = false) evs →
  searchTerm (ui (run evs w)) = searchTerm (ui w).
Proof.
  intros Hevs. revert w.
  induction Hevs as [|e evs He Hevs IH]; intros w; [done|].
  simpl. rewrite IH. by apply searchTerm_dispatch.
Qed.

Lemma reachable_run evs w : reachable w → reachable (run evs w).
Proof.
  revert w. induction evs as [|e evs IH]; intros w Hw; [done|].
  simpl. apply IH. by constructor.
Qed.

Lemma observeQuery_other k fn c k' :
  k' ≠ k → queries (observeQuery k fn c) !! k' = queries c !! k'.
Proof.
  intros Hne. unfold observeQuery, fetchIfIdle, refetch.
  destruct (queries c !! k) as [q|] eqn:Hq; simpl.
  - destruct (isFetching q); [done|]. simpl.
    by rewrite lookup_insert_ne.
  - by rewrite lookup_insert_ne.
Qed.

Lemma observeQuery_fetching k fn c :
  ∃ q, queries (observeQuery k fn c) !! k = Some q ∧ isFetching q = true.
Proof.
  unfold observeQuery, fetchIfIdle, refetch.
  destruct (queries c !! k) as [q|] eqn:Hq; simpl.
  - destruct (isFetching q) eqn:Hf; [by exists q|]. simpl.
    rewrite lookup_insert_eq. by eexists.
  - rewrite lookup_insert_eq. by eexists.
Qed.

(** What is on screen once the backend has answered the search fetch. *)
Lemma answerQuery_render backend w q :
  reachable w →
  queries (client w) !! searchKey (searchTerm (ui w)) = Some q →
  isFetching q = true →
  render (answerQuery backend (searchKey (searchTerm (ui w))) w)
  = if isLoading (queries (client w) !! usersKey) then Spinner
    else if from_option qerror false (queries (client w) !! usersKey)
         then ErrorMessage
         else Table (backend (searchQueryFn (searchTerm (ui w)))).
Proof.
  intros Hreach Hq Hf.
  pose proof (answerQuery_search backend w q Hreach Hq Hf) as Hres.
  destruct (answerQuery_queries backend _ w q Hq Hf) as [Hqs Hui].
  unfold render. rewrite Hres, Hqs, Hui.
  rewrite lookup_insert_eq, lookup_insert_ne by done.
  simpl. by rewrite orb_false_r.
Qed.

Lemma forgetInput_answerQuery backend k w :
  forgetInput (answerQuery backend k w)
  = answerQuery backend k (forgetInput w).
Proof.
  unfold answerQuery. simpl. by destruct (queries (client w) !! k).
Qed.

Lemma forgetInput_typing_run evs w :
  Forall (λ e, isTyping e = true) evs →
  forgetInput (run evs w) = forgetInput w.
Proof.
  intros Hevs. revert w.
  induction Hevs as [|e evs He Hevs IH]; intros w; [done|].
  simpl. rewrite IH. by apply forgetInput_typing.
Qed.

(** C5: the table is fed by the committed term alone. Two runs from the
    same state that commit no new term and differ only in the typing in
    the live input box leave the same committed term, the same query
    client, the same rendered view and the same table rows, before and
    after the backend answers the search fetch. Once it has answered, the
    search results are its response to [searchUser] of the committed term,
    or to [getUsers] when that term is empty, and the view is the table of
    exactly those rows unless the full-list query is loading or in error.
    The term changes only by a commit, which copies the live value; and
    after a commit of a new term, whatever is typed meanwhile, the answer
    to that term's request is what the table shows. *)
Theorem C5_rows_depend_on_committed_term (w : World)
    (evs1 evs2 : list Event) (backend : ApiCall → list User) :
  reachable w →
  Forall (λ e, commits e = false) evs1 →
  Forall (λ e, commits e = false) evs2 →
  withoutTyping evs1 = withoutTyping evs2 →
  searchTerm (ui (run evs1 w)) = searchTerm (ui w)
  ∧ client (run evs1 w) = client (run evs2 w)
  ∧ searchResults (run evs1 w) = searchResults (run evs2 w)
  ∧ render (run evs1 w) = render (run evs2 w)
  ∧ tableRows (run evs1 w) = tableRows (run evs2 w)
  ∧ (∀ q,
       queries (client (run evs1 w)) !! searchKey (searchTerm (ui w))
       = Some q →
       isFetching q = true →
       let rows := backend (if truthy (searchTerm (ui w))
                            then searchUser (searchTerm (ui w))
                            else getUsers) in
       let shown1 :=
         answerQuery backend (searchKey (searchTerm (ui w))) (run evs1 w) in
       let shown2 :=
         answerQuery backend (searchKey (searchTerm (ui w))) (run evs2 w) in
       searchResults shown1 = Some rows
       ∧ tableRows shown1 = rowCells <$> rows
       ∧ render shown1
         = (if isLoading (queries (client (run evs1 w)) !! usersKey)
            then Spinner
            else if from_option qerror false
                      (queries (client (run evs1 w)) !! usersKey)
                 then ErrorMessage
                 else Table rows)
       ∧ render shown2 = render shown1
       ∧ tableRows shown2 = tableRows shown1)
  ∧ (∀ term,
       searchTerm (ui (run [SearchChange term; SearchClick] w)) = term
       ∧ searchTerm (ui (run [SearchChange term; SearchKeyDown "Enter"] w))
         = term)
  ∧ (∀ term typing,
       term ≠ searchTerm (ui w) →
       Forall (λ e, isTyping e = true) typing →
       isLoading (queries (client w) !! usersKey) = false →
       from_option qerror false (queries (client w) !! usersKey) = false →
       let rows := backend (if truthy term then searchUser term
                            else getUsers) in
       let shown :=
         answerQuery backend (searchKey term)
           (run typing (run [SearchChange term; SearchClick] w)) in
       render shown = Table rows
       ∧ tableRows shown = rowCells <$> rows).
Proof.
  intros Hreach H1 H2 Heq.
  assert (forgetInput (run evs1 w) = forgetInput (run evs2 w)) as Hsame.
  { rewrite (forgetInput_withoutTyping evs1 w H1).
    rewrite (forgetInput_withoutTyping evs2 w H2). by rewrite Heq. }
  split; [by apply searchTerm_run|].
  split; [exact (f_equal client Hsame)|].
  split; [exact (f_equal searchResults Hsame)|].
  split; [exact (f_equal render Hsame)|].
  split; [exact (f_equal tableRows Hsame)|].
  split; [|split].
  - intros q Hq Hf rows shown1 shown2.
    pose proof (searchTerm_run evs1 w H1) as Hterm.
    pose proof (reachable_run evs1 w Hreach) as Hreach1.
    assert (searchResults shown1 = Some rows) as Hres.
    { subst shown1 rows. rewrite <- Hterm in Hq |- *.
      by apply (answerQuery_search backend (run evs1 w) q). }
    assert (forgetInput shown2 = forgetInput shown1) as Hshown.
    { subst shown1 shown2. by rewrite !forgetInput_answerQuery, Hsame. }
    split; [done|].
    split; [unfold tableRows; by rewrite Hres|].
    split; [|split].
    + subst shown1 rows. rewrite <- Hterm in Hq |- *.
      by apply (answerQuery_render backend (run evs1 w) q).
    + exact (f_equal render Hshown).
    + exact (f_equal tableRows Hshown).
  - intros term. unfold run. simpl.
    unfold handleSearchKeyPress, executeSearch, setSearchTerm. simpl.
    destruct (decide (term = searchTerm (ui w))); done.
  - intros term typing Hne Htyping Hload Herr rows shown.
    set (committed := run [SearchChange term; SearchClick] w).
    assert (reachable committed) as Hreachc by by apply reachable_run.
    assert (committed
            = withClient (observeQuery (searchKey term) (searchQueryFn term))
                (withUi (λ s,
                   {| formData := formData s; editingUser := editingUser s;
                      searchInput := searchInput s; searchTerm := term;
                      isDeleteModalOpen := isDeleteModalOpen s;
                      userToDelete := userToDelete s |})
                   (setSearchInput term w))) as Hcommitted.
    { subst committed. unfold run. simpl.
      unfold executeSearch, setSearchTerm. simpl.
      by rewrite decide_False. }
    assert (searchTerm (ui committed) = term) as Htermc
      by by rewrite Hcommitted.
    destruct (observeQuery_fetching (searchKey term) (searchQueryFn term)
                (client w)) as (q & Hq & Hf).
    assert (queries (client committed) !! searchKey term = Some q) as Hqc
      by by rewrite Hcommitted.
    assert (queries (client committed) !! usersKey
            = queries (client w) !! usersKey) as Huc.
    { rewrite Hcommitted. simpl. by apply observeQuery_other. }
    pose proof (forgetInput_typing_run typing committed Htyping) as Htyped.
    assert (forgetInput shown
            = forgetInput (answerQuery backend (searchKey term) committed))
      as Hshown.
    { subst shown. fold committed.
      by rewrite !forgetInput_answerQuery, Htyped. }
    assert (render (answerQuery backend (searchKey term) committed)
            = Table rows) as Hrender.
    { rewrite <- Htermc in Hqc |- *.
      rewrite (answerQuery_render backend committed q Hreachc Hqc Hf).
      rewrite Htermc in *. by rewrite Huc, Hload, Herr. }
    assert (searchResults (answerQuery backend (searchKey term) committed)
            = Some rows) as Hres.
    { rewrite <- Htermc in Hqc |- *.
      rewrite (answerQuery_search backend committed q Hreachc Hqc Hf).
      by rewrite Htermc. }
    split.
    + rewrite <- Hrender. exact (f_equal render Hshown).
    + transitivity (tableRows
                      (answerQuery backend (searchKey term) committed)).
      * exact (f_equal tableRows Hshown).
      * unfold tableRows. by rewrite Hres.
Qed.

Lemma C5_rows_depend_on_committed_term_witness :
  render (run [SearchChange "J"; QueryResolved usersKey [];
               SearchKeyDown "a"; SearchChange "Ja"] initialWorld)
  = render (run [QueryResolved usersKey []; SearchChange "zzz"]
              initialWorld)
  ∧ render
      (answerQuery
         (λ c, match c with
               | searchUser "Jane" => [mkUser "j1" "Jane" "Doe"]
               | _ => []
               end)
         (searchKey "Jane")
         (run [SearchChange "Janet"; SearchChange "x"]
            (run [SearchChange "Jane"; SearchClick]
               (dispatch (QueryResolved usersKey []) initialWorld))))
    = Table [mkUser "j1" "Jane" "Doe"].
Proof.
  split.
  - apply (C5_rows_depend_on_committed_term initialWorld
            [SearchChange "J"; QueryResolved usersKey [];
             SearchKeyDown "a"; SearchChange "Ja"]
            [QueryResolved usersKey []; SearchChange "zzz"]
            (λ _, [])
            reachable_initial
            ltac:(repeat constructor) ltac:(repeat constructor) eq_refl).
  - apply (proj2 (proj2 (proj2 (proj2 (proj2 (proj2 (proj2
      (C5_rows_depend_on_committed_term
         (dispatch (QueryResolved usersKey []) initialWorld) [] []
         (λ c, match c with
               | searchUser "Jane" => [mkUser "j1" "Jane" "Doe"]
               | _ => []
               end)
         (reachable_step _ _ reachable_initial)
         ltac:(constructor) ltac:(constructor) eq_refl))))))) "Jane"
      [SearchChange "Janet"; SearchChange "x"]
      ltac:(discriminate) ltac:(repeat constructor) eq_refl eq_refl).
Defined.

(** * Further properties *)

(** ** Editing a user *)

Lemma applyEdits_frame edits w :
  client (applyEdits edits w) = client w
  ∧ editingUser (ui (applyEdits edits w)) = editingUser (ui w).
Proof.
  induction edits as [|e edits IH] using rev_ind; [done|].
  rewrite applyEdits_snoc. simpl. exact IH.
Qed.

(** X1: loading a user for editing replaces the form by that user's two
    names, whatever had been typed before; after any field edits, a submit
    with the button enabled sends one [updateUser] request, for the loaded
    user's identifier, whose payload holds for each field the last value
    edited, or else the loaded user's name. *)
Theorem X1_edit_then_submit (w : World) (user : User)
    (edits : list (string * string)) :
  submitDisabled w = false →
  let loaded := dispatch (EditClick user) w in
  let edited := applyEdits edits loaded in
  formData (ui loaded) = formOf user
  ∧ editingUser (ui edited) = Some user
  ∧ (∃ payload,
       calls (client (dispatch Submit edited))
       = updateUser (id user) payload :: calls (client w)
       ∧ ∀ k, payload !! k
              = match lastValue k edits with
                | Some v => Some v
                | None => formOf user !! k
                end)
  ∧ submitDisabled (dispatch Submit edited) = true.
Proof.
  intros Hen loaded edited.
  destruct (applyEdits_frame edits loaded) as [Hclient Hedit].
  fold edited in Hclient, Hedit.
  assert (submitDisabled edited = false) as Hen'.
  { unfold submitDisabled. rewrite Hclient. exact Hen. }
  split; [done|]. split; [by rewrite Hedit|].
  assert (dispatch Submit edited
          = mutate updateUserMutation updateUserOptions
              (id user, formData (ui edited)) handleUpdateOptions edited)
    as ->.
  { cbn [dispatch]. unfold onSubmit, handleUpdate. by rewrite Hen', Hedit. }
  split; [|unfold submitDisabled; simpl; apply orb_true_r].
  exists (formData (ui edited)). simpl. rewrite Hclient. split; [done|].
  intros k. subst edited. by rewrite formData_applyEdits.
Qed.

Lemma X1_edit_then_submit_witness :
  ∃ payload,
    calls (client (dispatch Submit
      (applyEdits [("lastName", "King")]
         (dispatch (EditClick (mkUser "a1" "Ada" "Lovelace"))
            (dispatch (InputChange "firstName" "typed") initialWorld)))))
    = updateUser "a1" payload
        :: calls (client (dispatch (InputChange "firstName" "typed")
                            initialWorld))
    ∧ payload !! "firstName" = Some "Ada"
    ∧ payload !! "lastName" = Some "King".
Proof.
  destruct (X1_edit_then_submit
    (dispatch (InputChange "firstName" "typed") initialWorld)
    (mkUser "a1" "Ada" "Lovelace") [("lastName", "King")] eq_refl)
    as (_ & _ & (payload & Hcalls & Hpayload) & _).
  exists payload. split; [exact Hcalls|].
  split; [exact (Hpayload "firstName")|exact (Hpayload "lastName")].
Defined.

(** ** Repeated clicks *)

Lemma executeSearch_twice w :
  executeSearch (executeSearch w) = executeSearch w.
Proof.
  destruct (decide (searchInput (ui w) = searchTerm (ui w))) as [Heq|Hne].
  - assert (executeSearch w = w) as H.
    { unfold executeSearch, setSearchTerm. by rewrite decide_True. }
    by rewrite !H.
  - unfold executeSearch at 1. unfold setSearchTerm at 1.
    rewrite decide_True; [done|].
    unfold executeSearch, setSearchTerm. by rewrite decide_False.
Qed.

(** X2: a second confirmation, or a second commit of the search by the
    button or by Enter, right after the first does nothing. Submitting is
    protected by the button's rendered [disabled] flag alone: a submit that
    finds the flag set does nothing, and an accepted submit sets it; but
    the handlers have no guard of their own, so a second submit that
    reaches the handler before the flag is rendered again sends the same
    request a second time and leaves two mutations in flight, of which the
    observer follows the second. *)
Theorem X2_double_click (w : World) :
  dispatch ConfirmClick (dispatch ConfirmClick w) = dispatch ConfirmClick w
  ∧ dispatch SearchClick (dispatch SearchClick w) = dispatch SearchClick w
  ∧ dispatch (SearchKeyDown "Enter") (dispatch SearchClick w)
    = dispatch SearchClick w
  ∧ (submitDisabled w = true → dispatch Submit w = w)
  ∧ (submitDisabled w = false →
     dispatch Submit w = submitHandler w
     ∧ submitDisabled (dispatch Submit w) = true)
  ∧ (let sent :=
       match editingUser (ui w) with
       | Some user => updateUser (id user) (formData (ui w))
       | None => createUser (formData (ui w))
       end in
     let name :=
       match editingUser (ui w) with
       | Some _ => updateUserMutation
       | None => createUserMutation
       end in
     let twice := submitHandler (submitHandler w) in
     calls (client twice) = sent :: sent :: calls (client w)
     ∧ (∃ m1 m2,
          mutations (client twice) !! nextMutationId (client w) = Some m1
          ∧ mutations (client twice) !! S (nextMutationId (client w))
            = Some m2
          ∧ owner m1 = name ∧ request m1 = sent
          ∧ owner m2 = name ∧ request m2 = sent)
     ∧ currentMutation (observerOf name (client twice))
       = Some (S (nextMutationId (client w)))).
Proof.
  split; [|split; [|split; [|split; [|split]]]].
  - cbn [dispatch].
    destruct (userToDelete (ui (handleConfirmDelete w))) as [t|] eqn:Ht.
    + assert (handleConfirmDelete w = w) as H.
      { unfold handleConfirmDelete in *.
        destruct (userToDelete (ui w)) as [target|]; [|done].
        by destruct (truthy target). }
      by rewrite !H.
    + unfold handleConfirmDelete at 1. by rewrite Ht.
  - apply executeSearch_twice.
  - cbn [dispatch]. unfold handleSearchKeyPress.
    rewrite decide_True by done. apply executeSearch_twice.
  - intros Hdis. cbn [dispatch]. unfold onSubmit. by rewrite Hdis.
  - intros Hen. cbn [dispatch]. unfold onSubmit. rewrite Hen.
    split; [done|]. unfold handleUpdate.
    destruct (editingUser (ui w)); unfold submitDisabled; simpl;
      [apply orb_true_r|done].
  - intros sent name twice. subst sent name twice.
    unfold submitHandler, handleUpdate, handleSubmit.
    destruct (editingUser (ui w)) as [user|] eqn:Hedit; simpl;
      rewrite Hedit; simpl.
    + split; [done|]. split; [|done].
      eexists _, _. rewrite lookup_insert_ne by lia.
      rewrite !lookup_insert_eq. by repeat split.
    + split; [done|]. split; [|done].
      eexists _, _. rewrite lookup_insert_ne by lia.
      rewrite !lookup_insert_eq. by repeat split.
Qed.

Lemma X2_double_click_witness :
  dispatch Submit (dispatch Submit initialWorld)
  = dispatch Submit initialWorld
  ∧ calls (client (submitHandler (submitHandler initialWorld)))
    = createUser emptyForm :: createUser emptyForm
        :: calls (client initialWorld).
Proof.
  split.
  - apply (proj1 (proj2 (proj2 (proj2
      (X2_double_click (dispatch Submit initialWorld)))))).
    reflexivity.
  - apply (proj2 (proj2 (proj2 (proj2 (proj2
      (X2_double_click initialWorld)))))).
Defined.

(** ** Pending flags and mutations in flight *)





(** *** When the submit button's flag lags *)

Lemma reachable_lagReachable w : reachable w → lagReachable w.
Proof. induction 1; by constructor. Qed.

Lemma settleMutation_side mid ok m w :
  mutations (client w) !! mid = Some m →
  mutationSide (client (settleMutation mid ok w))
  = if ok || negb (Nat.ltb (failureCount m) (mRetry m)) then
      if decide (currentMutation (observerOf (owner m) (client w)) = Some mid)
      then mutationSide
             (settledObserver (owner m) mid (if ok then success else error)
                (client w))
      else mutationSide (withMutations (delete mid) (client w))
    else mutationSide
           (withMutations
              (<[mid := {| owner := owner m; request := request m;
                           mOnSuccess := mOnSuccess m;
                           mOnError := mOnError m; mRetry := mRetry m;
                           failureCount := S (failureCount m) |}]>)
              (client w)).
Proof.
  intros Hm. unfold settleMutation. rewrite Hm.
  assert (∀ cb st pick,
    mutationSide (client (notifyObserver (owner m) mid st pick
      (withClient (withMutations (delete mid)) (runCallback cb w))))
    = if decide (currentMutation (observerOf (owner m) (client w))
                 = Some mid)
      then mutationSide (settledObserver (owner m) mid st (client w))
      else mutationSide (withMutations (delete mid) (client w))) as Hn.
  { intros cb st pick. unfold notifyObserver.
    assert (observerOf (owner m)
              (client (withClient (withMutations (delete mid))
                         (runCallback cb w)))
            = observerOf (owner m) (client w)) as Ho.
    { simpl.
      replace (observerOf (owner m) (withMutations _ _))
        with (observerOf (owner m) (client (runCallback cb w)))
        by by destruct (owner m).
      apply runCallback_observerOf. }
    rewrite Ho.
    pose proof (proj1 (runCallback_frame cb w)) as Hside.
    unfold mutationSide in Hside. simplify_eq.
    case_decide.
    - rewrite (proj1 (runCallback_frame _ _)). simpl.
      unfold settledObserver, mutationSide.
      destruct (owner m); simpl; congruence.
    - simpl. unfold mutationSide. simpl. congruence. }
  destruct ok; simpl; [apply Hn|].
  destruct (Nat.ltb (failureCount m) (mRetry m)); simpl; [done|apply Hn].
Qed.

Lemma lag_frame c c' :
  mutationSide c' = mutationSide c →
  idsFresh c ∧ pendingInFlight c ∧ deleteTracked c →
  idsFresh c' ∧ pendingInFlight c' ∧ deleteTracked c'.
Proof.
  intros Hside (H1 & H2 & H3).
  pose proof (λ name, observerOf_mutationSide name _ _ Hside) as Ho.
  pose proof (Ho deleteUserMutation) as Hd. simpl in Hd.
  unfold mutationSide in Hside. simplify_eq.
  assert (mutations c' = mutations c) as Hm by done.
  assert (nextMutationId c' = nextMutationId c) as Hn by done.
  split; [|split].
  - intros mid m. rewrite Hm, Hn. apply H1.
  - intros name. rewrite Ho, Hm. apply H2.
  - intros mid m. rewrite Hm, Hd. apply H3.
Qed.

Lemma lag_mutate {V} name (options : MutationOptions V) variables mo w :
  (name = deleteUserMutation →
   status (deleteObserver (client w)) ≠ pending) →
  idsFresh (client w) ∧ pendingInFlight (client w)
  ∧ deleteTracked (client w) →
  idsFresh (client (mutate name options variables mo w))
  ∧ pendingInFlight (client (mutate name options variables mo w))
  ∧ deleteTracked (client (mutate name options variables mo w)).
Proof.
  intros Hdel (H1 & H2 & H3). split; [|split].
  - intros mid m. simpl.
    rewrite lookup_insert. case_decide; [lia|].
    intros Hm. specialize (H1 _ _ Hm). lia.
  - intros name'. simpl. rewrite observerOf_setObserver.
    case_decide as Hn.
    + intros _. subst name'. eexists _, _. split; [done|].
      by rewrite lookup_insert_eq.
    + replace (observerOf name' _) with (observerOf name' (client w))
        by by destruct name'.
      intros Hst. destruct (H2 _ Hst) as (mid & m & Hcur & Hm & Hown).
      exists mid, m. split; [done|]. split; [|done].
      rewrite lookup_insert_ne; [done|]. specialize (H1 _ _ Hm). lia.
  - intros mid m. simpl.
    rewrite lookup_insert. case_decide as Hmid.
    + subst mid. intros [= <-]. simpl. intros ->. by simpl.
    + intros Hm Hown. destruct (H3 _ _ Hm Hown) as [Hcur Hst].
      destruct name; simpl; try done.
      by destruct (Hdel eq_refl).
Qed.

Lemma lag_drop mid m c :
  mutations c !! mid = Some m →
  currentMutation (observerOf (owner m) c) ≠ Some mid →
  idsFresh c ∧ pendingInFlight c ∧ deleteTracked c →
  idsFresh (withMutations (delete mid) c)
  ∧ pendingInFlight (withMutations (delete mid) c)
  ∧ deleteTracked (withMutations (delete mid) c).
Proof.
  intros Hm Hcur (H1 & H2 & H3). split; [|split].
  - intros mid' m'. simpl. rewrite lookup_delete.
    case_decide; [done|apply H1].
  - intros name.
    replace (observerOf name (withMutations _ _)) with (observerOf name c)
      by by destruct name.
    intros Hst. destruct (H2 _ Hst) as (mid' & m' & Hc' & Hm' & Hown).
    exists mid', m'. split; [done|]. split; [|done]. simpl.
    rewrite lookup_delete_ne; [done|]. intros <-. by simplify_eq.
  - intros mid' m'. simpl. rewrite lookup_delete.
    case_decide; [done|apply H3].
Qed.

Lemma lag_settled mid m st c :
  st ≠ pending →
  mutations c !! mid = Some m →
  currentMutation (observerOf (owner m) c) = Some mid →
  idsFresh c ∧ pendingInFlight c ∧ deleteTracked c →
  idsFresh (settledObserver (owner m) mid st c)
  ∧ pendingInFlight (settledObserver (owner m) mid st c)
  ∧ deleteTracked (settledObserver (owner m) mid st c).
Proof.
  intros Hst Hm Hcur (H1 & H2 & H3).
  assert (mutations (settledObserver (owner m) mid st c)
          = delete mid (mutations c)) as Hmuts
    by by unfold settledObserver; destruct (owner m).
  split; [|split].
  - intros mid' m'. rewrite Hmuts.
    replace (nextMutationId (settledObserver _ _ _ _))
      with (nextMutationId c) by by unfold settledObserver; destruct (owner m).
    rewrite lookup_delete. case_decide; [done|apply H1].
  - intros name. rewrite Hmuts. unfold settledObserver.
    rewrite observerOf_setObserver. case_decide as Hn; [done|].
    replace (observerOf name (withMutations _ _)) with (observerOf name c)
      by by destruct name.
    intros Hpend. destruct (H2 _ Hpend) as (mid' & m' & Hc' & Hm' & Hown).
    exists mid', m'. split; [done|]. split; [|done].
    rewrite lookup_delete_ne; [done|]. intros <-. congruence.
  - intros mid' m'. rewrite Hmuts. rewrite lookup_delete.
    case_decide as Hmid; [done|]. intros Hm' Hown'.
    destruct (H3 _ _ Hm' Hown') as [Hc' Hs'].
    assert (owner m ≠ deleteUserMutation) as Hne.
    { intros Hd. rewrite Hd in Hcur. simpl in Hcur. congruence. }
    unfold settledObserver. by destruct (owner m).
Qed.

Lemma lag_retry mid m m' c :
  mutations c !! mid = Some m →
  owner m' = owner m →
  idsFresh c ∧ pendingInFlight c ∧ deleteTracked c →
  idsFresh (withMutations (<[mid := m']>) c)
  ∧ pendingInFlight (withMutations (<[mid := m']>) c)
  ∧ deleteTracked (withMutations (<[mid := m']>) c).
Proof.
  intros Hm Hown (H1 & H2 & H3). split; [|split].
  - intros mid0 m0. simpl. rewrite lookup_insert.
    case_decide as Hmid; [|apply H1]. subst mid0. intros _. by eapply H1.
  - intros name.
    replace (observerOf name (withMutations _ _)) with (observerOf name c)
      by by destruct name.
    intros Hst. destruct (H2 _ Hst) as (mid0 & m0 & Hc0 & Hm0 & Hown0).
    simpl. destruct (decide (mid0 = mid)) as [->|Hne].
    + exists mid, m'. rewrite lookup_insert_eq. simplify_eq.
      by repeat split.
    + exists mid0, m0. by rewrite lookup_insert_ne.
  - intros mid0 m0. simpl. rewrite lookup_insert.
    case_decide as Hmid; [|apply H3]. subst mid0. intros [= <-] Hd.
    apply (H3 mid m Hm). congruence.
Qed.

Lemma lag_settleMutation mid ok w :
  idsFresh (client w) ∧ pendingInFlight (client w)
  ∧ deleteTracked (client w) →
  idsFresh (client (settleMutation mid ok w))
  ∧ pendingInFlight (client (settleMutation mid ok w))
  ∧ deleteTracked (client (settleMutation mid ok w)).
Proof.
  intros Hinv.
  destruct (mutations (client w) !! mid) as [m|] eqn:Hm.
  - pose proof (settleMutation_side mid ok m w Hm) as Hside.
    destruct (ok || negb (Nat.ltb (failureCount m) (mRetry m)));
      [case_decide|]; (eapply lag_frame; [exact Hside|]).
    + apply lag_settled; [by destruct ok|done..].
    + by apply (lag_drop mid m).
    + by apply (lag_retry mid m).
  - unfold settleMutation. by rewrite Hm.
Qed.

Lemma lag_settle_deleteObserver mid ok w :
  status (deleteObserver (client (settleMutation mid ok w))) = pending →
  status (deleteObserver (client w)) = pending.
Proof.
  destruct (mutations (client w) !! mid) as [m|] eqn:Hm.
  - pose proof (settleMutation_side mid ok m w Hm) as Hside.
    destruct (ok || negb (Nat.ltb (failureCount m) (mRetry m)));
      [case_decide|];
      pose proof (observerOf_mutationSide deleteUserMutation _ _ Hside)
        as Ho; simpl in Ho; rewrite Ho; try done.
    unfold settledObserver. destruct (owner m), ok; simpl; done.
  - unfold settleMutation. by rewrite Hm.
Qed.

Lemma lagInvariant_frame w w' :
  mutationSide (client w') = mutationSide (client w) →
  userToDelete (ui w') = userToDelete (ui w) →
  lagInvariant w → lagInvariant w'.
Proof.
  intros Hside Htarget (H1 & H2 & H3 & H4).
  destruct (lag_frame _ _ Hside (conj H1 (conj H2 H3))) as (? & ? & ?).
  split; [done|]. split; [done|]. split; [done|].
  unfold deleteGuarded in *. rewrite Htarget.
  pose proof (observerOf_mutationSide deleteUserMutation _ _ Hside) as Ho.
  simpl in Ho. by rewrite Ho.
Qed.

Lemma lagInvariant_submitHandler w :
  lagInvariant w → lagInvariant (submitHandler w).
Proof.
  intros (H1 & H2 & H3 & H4).
  unfold submitHandler, handleUpdate, handleSubmit.
  destruct (editingUser (ui w)) as [user|].
  - destruct (lag_mutate updateUserMutation updateUserOptions
                (id user, formData (ui w)) handleUpdateOptions w
                ltac:(done) (conj H1 (conj H2 H3))) as (? & ? & ?).
    split; [done|]. split; [done|]. split; [done|]. exact H4.
  - destruct (lag_mutate createUserMutation createUserOptions
                (formData (ui w)) noMutateOptions w
                ltac:(done) (conj H1 (conj H2 H3))) as (? & ? & ?).
    split; [done|]. split; [done|]. split; [done|]. exact H4.
Qed.

Lemma lagReachable_invariant w : lagReachable w → lagInvariant w.
Proof.
  induction 1 as [|e w Hreach IH|w Hreach IH].
  - split; [|split; [|split]].
    + intros mid m. simpl. unfold observeQuery; simpl.
      by rewrite lookup_empty.
    + intros []; done.
    + intros mid m. simpl. unfold observeQuery; simpl.
      by rewrite lookup_empty.
    + by intros _.
  - pose proof IH as (H1 & H2 & H3 & H4).
    destruct e; cbn [dispatch].
    + (* InputChange *) revert IH. by apply lagInvariant_frame.
    + (* Submit *)
      unfold onSubmit. destruct (submitDisabled w); [done|].
      by apply lagInvariant_submitHandler.
    + (* CancelClick *) revert IH. by apply lagInvariant_frame.
    + (* EditClick *) revert IH. by apply lagInvariant_frame.
    + (* DeleteClick *)
      unfold onDeleteClick, isPending.
      destruct (bool_decide (status (deleteObserver (client w)) = pending))
        eqn:Hd; [done|].
      apply bool_decide_eq_false in Hd.
      split; [done|]. split; [done|]. split; [done|]. intros Hp. done.
    + (* ConfirmClick *)
      unfold handleConfirmDelete.
      destruct (userToDelete (ui w)) as [target|] eqn:Ht; [|done].
      destruct (truthy target); [|done].
      destruct (lag_mutate deleteUserMutation deleteUserOptions target
                  noMutateOptions w) as (? & ? & ?); [|done|].
      { intros _ Hp. specialize (H4 Hp). congruence. }
      split; [done|]. split; [done|]. split; [done|]. by intros _.
    + (* CloseModal *)
      split; [done|]. split; [done|]. split; [done|]. by intros _.
    + (* SearchChange *) revert IH. by apply lagInvariant_frame.
    + (* SearchClick *)
      unfold executeSearch, setSearchTerm. case_decide; [done|].
      revert IH. apply lagInvariant_frame; [|done]. simpl.
      apply mutationSide_observeQuery.
    + (* SearchKeyDown *)
      unfold handleSearchKeyPress, executeSearch, setSearchTerm.
      case_decide; [|done]. case_decide; [done|].
      revert IH. apply lagInvariant_frame; [|done]. simpl.
      apply mutationSide_observeQuery.
    + (* WindowFocus *)
      revert IH. apply lagInvariant_frame; [|done]. simpl.
      by rewrite !mutationSide_fetchIfIdle.
    + (* MutationSettled *)
      destruct (lag_settleMutation mid ok w (conj H1 (conj H2 H3)))
        as (? & ? & ?).
      split; [done|]. split; [done|]. split; [done|].
      intros Hp. apply lag_settle_deleteObserver in Hp.
      pose proof (settleMutation_untouched mid ok w) as Hu.
      unfold untouchedByCallbacks in Hu. injection Hu as _ _ _ Htarget.
      rewrite Htarget. by apply H4.
    + (* QueryResolved *) revert IH. by apply lagInvariant_frame.
    + (* QueryRejected *) revert IH. by apply lagInvariant_frame.
  - by apply lagInvariant_submitHandler.
Qed.

(** X3: what the pending flags tell even when the submit button's
    rendered flag lags, so that a submit may reach its handler while a
    create or an update is pending. In every state so reachable (the
    states reached with the flag up to date among them) an observer
    reporting pending has its current mutation in flight; the delete
    observer's flag is exact, pending exactly when a deletion is in
    flight; and two deletions are never in flight together. *)
Theorem X3_pending_flags_under_lag (w : World) :
  lagReachable w →
  (∀ name, isPending (observerOf name (client w)) = true →
     ∃ mid m, currentMutation (observerOf name (client w)) = Some mid
              ∧ mutations (client w) !! mid = Some m ∧ owner m = name)
  ∧ (isPending (deleteObserver (client w)) = true
     ↔ inFlight deleteUserMutation (client w))
  ∧ (∀ mid1 mid2 m1 m2,
       mutations (client w) !! mid1 = Some m1 →
       mutations (client w) !! mid2 = Some m2 →
       owner m1 = deleteUserMutation → owner m2 = deleteUserMutation →
       mid1 = mid2).
Proof.
  intros Hreach.
  destruct (lagReachable_invariant w Hreach) as (H1 & H2 & H3 & H4).
  unfold isPending. split; [|split].
  - intros name Hp. apply bool_decide_eq_true in Hp. by apply H2.
  - rewrite bool_decide_eq_true. split.
    + intros Hp. destruct (H2 deleteUserMutation Hp)
        as (mid & m & _ & Hm & Hown).
      by exists mid, m.
    + intros (mid & m & Hm & Hown). by destruct (H3 _ _ Hm Hown).
  - intros mid1 mid2 m1 m2 Hm1 Hm2 Ho1 Ho2.
    destruct (H3 _ _ Hm1 Ho1) as [Hc1 _].
    destruct (H3 _ _ Hm2 Ho2) as [Hc2 _]. congruence.
Qed.

Lemma X3_pending_flags_under_lag_witness :
  ∃ mid m,
    currentMutation (createObserver
      (client (submitHandler (submitHandler initialWorld)))) = Some mid
    ∧ mutations (client (submitHandler (submitHandler initialWorld))) !! mid
      = Some m
    ∧ owner m = createUserMutation.
Proof.
  apply (proj1 (X3_pending_flags_under_lag
    (submitHandler (submitHandler initialWorld))
    (lagReachable_submit _ (lagReachable_submit _ lagReachable_initial)))
    createUserMutation).
  reflexivity.
Defined.



(** ** The request log *)

Lemma logsOnly_refl P c : logsOnly P c c.
Proof. by exists []. Qed.

Lemma logsOnly_trans P c1 c2 c3 :
  logsOnly P c1 c2 → logsOnly P c2 c3 → logsOnly P c1 c3.
Proof.
  intros (n1 & H1 & F1) (n2 & H2 & F2). exists (n2 ++ n1)%list.
  split; [by rewrite H2, H1, app_assoc|]. by apply Forall_app.
Qed.

Lemma logsOnly_same P c c' : calls c' = calls c → logsOnly P c c'.
Proof. intros H. by exists []. Qed.

Lemma logsOnly_refetch F k c :
  queryFns c = F →
  logsOnly (λ a, ∃ k, F !! k = Some a) c (refetch k c).
Proof.
  intros <-. unfold refetch.
  destruct (queries c !! k) as [q|] eqn:Hq; [|apply logsOnly_refl].
  exists [queryFn q]. split; [done|]. apply Forall_singleton.
  exists k. unfold queryFns. by rewrite lookup_fmap, Hq.
Qed.

Lemma logsOnly_fetchIfIdle F k c :
  queryFns c = F →
  logsOnly (λ a, ∃ k, F !! k = Some a) c (fetchIfIdle k c).
Proof.
  intros HF. unfold fetchIfIdle.
  destruct (queries c !! k) as [q|]; [|apply logsOnly_refl].
  destruct (isFetching q); [apply logsOnly_refl|].
  by apply logsOnly_refetch.
Qed.

Lemma logsOnly_invalidateQueriesIn F queryKey active c :
  queryFns c = F →
  logsOnly (λ a, ∃ k, F !! k = Some a) c
    (invalidateQueriesIn queryKey active c).
Proof.
  intros HF. unfold invalidateQueriesIn.
  set (c0 := withQueries _ c).
  assert (queryFns c0 = F) as HF0.
  { rewrite <- HF.
    apply (queryFns_invalidateQueriesIn queryKey [] c). }
  apply (logsOnly_trans _ c c0); [by apply logsOnly_same|].
  clearbody c0. clear HF. revert c0 HF0.
  induction active as [|k active IH]; intros c0 HF0; simpl;
    [apply logsOnly_refl|].
  destruct (matchesKey queryKey k).
  - eapply logsOnly_trans; [by apply logsOnly_refetch|].
    apply IH. by rewrite queryFns_refetch.
  - by apply IH.
Qed.

Lemma logsOnly_runCallback F cb w :
  queryFns (client w) = F →
  logsOnly (λ a, ∃ k, F !! k = Some a) (client w)
    (client (runCallback cb w)).
Proof.
  destruct cb as [body|]; simpl; [|intros _; apply logsOnly_refl].
  revert w. induction body as [|e body IH]; intros w HF; simpl;
    [apply logsOnly_refl|].
  apply (logsOnly_trans _ _ (client (perform e w))).
  - destruct e; simpl; try apply logsOnly_refl.
    by apply logsOnly_invalidateQueriesIn.
  - apply IH. rewrite <- HF.
    apply (queryFns_runCallback (Some [e]) w).
Qed.

Lemma logsOnly_notifyObserver F name mid st pick w :
  queryFns (client w) = F →
  logsOnly (λ a, ∃ k, F !! k = Some a) (client w)
    (client (notifyObserver name mid st pick w)).
Proof.
  intros HF. unfold notifyObserver. case_decide; [|apply logsOnly_refl].
  eapply logsOnly_trans; [|apply logsOnly_runCallback].
  - apply logsOnly_same. simpl. by destruct name.
  - rewrite <- HF. unfold queryFns. simpl. by destruct name.
Qed.

Lemma logsOnly_settleMutation mid ok w :
  mutationsTracked (client w) →
  logsOnly (λ a, ∃ k, queryFns (client w) !! k = Some a) (client w)
    (client (settleMutation mid ok w)).
Proof.
  intros [H1 _]. unfold settleMutation.
  destruct (mutations (client w) !! mid) as [m|] eqn:Hm;
    [|apply logsOnly_refl].
  destruct (H1 _ _ Hm) as (_ & _ & _ & Hr & _). rewrite Hr. simpl.
  assert (∀ cb, logsOnly (λ a, ∃ k, queryFns (client w) !! k = Some a)
            (client w)
            (client (withClient (withMutations (delete mid))
                       (runCallback cb w)))) as Hcb.
  { intros cb. eapply logsOnly_trans; [by apply logsOnly_runCallback|].
    by apply logsOnly_same. }
  destruct ok.
  - eapply logsOnly_trans; [apply Hcb|].
    apply logsOnly_notifyObserver. simpl.
    apply (queryFns_runCallback (mOnSuccess m) w).
  - eapply logsOnly_trans; [apply Hcb|].
    apply logsOnly_notifyObserver. simpl.
    apply (queryFns_runCallback (mOnError m) w).
Qed.

Lemma queryFns_dispatch e w :
  queryFns (client (dispatch e w)) = queryFns (client w)
  ∨ ∃ t, queryFns (client w) !! searchKey t = None
         ∧ queryFns (client (dispatch e w))
           = <[searchKey t := searchQueryFn t]> (queryFns (client w)).
Proof.
  assert (∀ t, queryFns (client (setSearchTerm t w)) = queryFns (client w)
     ∨ ∃ t', queryFns (client w) !! searchKey t' = None
             ∧ queryFns (client (setSearchTerm t w))
               = <[searchKey t' := searchQueryFn t']> (queryFns (client w)))
    as Hcommit.
  { intros t. unfold setSearchTerm. case_decide; [by left|]. simpl.
    rewrite queryFns_observeQuery.
    destruct (queryFns (client w) !! searchKey t) eqn:Hk; [by left|].
    right. by exists t. }
  destruct e; cbn [dispatch]; try (by left).
  - left. unfold onSubmit. destruct (submitDisabled w); [done|].
    unfold handleUpdate. by destruct (editingUser (ui w)).
  - left. unfold onDeleteClick.
    by destruct (isPending (deleteObserver (client w))).
  - left. unfold handleConfirmDelete.
    destruct (userToDelete (ui w)) as [target|]; [|done].
    by destruct (truthy target).
  - apply Hcommit.
  - unfold handleSearchKeyPress. case_decide; [apply Hcommit|by left].
  - left. simpl. by rewrite !queryFns_fetchIfIdle.
  - left. apply queryFns_settleMutation.
  - left. unfold queryFns. simpl. by apply queryFns_resolved.
  - left. unfold queryFns. simpl. by apply queryFns_resolved.
Qed.

Lemma reachable_cacheShape w : reachable w → cacheShape (client w).
Proof.
  induction 1 as [|e w Hreach IH].
  { intros k fn.
    assert (queryFns (client initialWorld)
            = <[searchKey "" := searchQueryFn ""]>
                (<[usersKey := usersQueryFn]> ∅)) as -> by reflexivity.
    rewrite lookup_insert. case_decide as Hk.
    - intros [= <-]. right. by exists "".
    - rewrite lookup_insert. case_decide as Hk'; [|by rewrite lookup_empty].
      intros [= <-]. by left. }
  unfold cacheShape in *.
  destruct (queryFns_dispatch e w) as [-> | (t & _ & ->)]; [done|].
  intros k fn. rewrite lookup_insert. case_decide as Hk.
  - intros [= <-]. right. by exists t.
  - apply IH.
Qed.

Lemma cacheShape_reads c a :
  cacheShape c → (∃ k, queryFns c !! k = Some a) →
  isWrite a = false ∧ namesSubject a.
Proof.
  intros Hshape [k Hk].
  destruct (Hshape _ _ Hk) as [[_ ->] | (t & _ & ->)]; [done|].
  unfold searchQueryFn, truthy.
  destruct (String.eqb t "") eqn:Ht; simpl; [done|].
  split; [done|]. by apply String.eqb_neq.
Qed.

(** What one event adds to the request log, in a state with sound
    mutations and a well-shaped cache. *)
Lemma dispatch_logs e w :
  mutationsTracked (client w) → cacheShape (client w) →
  logsOnly (λ a, namesSubject a
                 ∧ (isWrite a = true → e = Submit ∨ e = ConfirmClick))
    (client w) (client (dispatch e w)).
Proof.
  intros Htr Hshape.
  assert (∀ c', logsOnly (λ a, ∃ k, queryFns (client w) !! k = Some a)
                  (client w) c' →
                logsOnly (λ a, namesSubject a
                   ∧ (isWrite a = true → e = Submit ∨ e = ConfirmClick))
                  (client w) c') as Hreads.
  { intros c' (new & Hnew & Hall). exists new. split; [done|].
    eapply Forall_impl; [exact Hall|]. intros a Ha.
    destruct (cacheShape_reads _ a Hshape Ha) as [Hw Hn].
    split; [done|]. by rewrite Hw. }
  assert (∀ t, logsOnly (λ a, ∃ k, queryFns (client w) !! k = Some a
                              ∨ a = searchQueryFn t)
                 (client w) (client (setSearchTerm t w))) as Hcommit.
  { intros t. unfold setSearchTerm. case_decide; [apply logsOnly_refl|].
    simpl. unfold observeQuery.
    destruct (queries (client w) !! searchKey t) as [q|] eqn:Hq.
    - destruct (logsOnly_fetchIfIdle _ (searchKey t) (client w) eq_refl)
        as (new & Hnew & Hall).
      exists new. split; [done|]. eapply Forall_impl; [exact Hall|].
      intros a [k Hk]. exists k. by left.
    - exists [searchQueryFn t]. split; [done|]. apply Forall_singleton.
      exists []. by right. }
  assert (∀ t, logsOnly (λ a, namesSubject a
                   ∧ (isWrite a = true → e = Submit ∨ e = ConfirmClick))
                 (client w) (client (setSearchTerm t w))) as Hcommit'.
  { intros t. destruct (Hcommit t) as (new & Hnew & Hall).
    exists new. split; [done|]. eapply Forall_impl; [exact Hall|].
    intros a [k [Hk | ->]].
    - destruct (cacheShape_reads _ a Hshape (ex_intro _ k Hk)) as [Hw Hn].
      split; [done|]. by rewrite Hw.
    - unfold searchQueryFn, truthy.
      destruct (String.eqb t "") eqn:Ht; simpl; [done|].
      split; [by apply String.eqb_neq|done]. }
  destruct e; cbn [dispatch]; try apply logsOnly_refl.
  - unfold onSubmit. destruct (submitDisabled w); [apply logsOnly_refl|].
    unfold handleUpdate, handleSubmit.
    destruct (editingUser (ui w)) as [user|].
    + exists [updateUser (id user) (formData (ui w))].
      split; [by simpl|]. apply Forall_singleton. split; [done|by left].
    + exists [createUser (formData (ui w))].
      split; [by simpl|]. apply Forall_singleton. split; [done|by left].
  - unfold onDeleteClick.
    destruct (isPending (deleteObserver (client w))); apply logsOnly_refl.
  - unfold handleConfirmDelete.
    destruct (userToDelete (ui w)) as [target|]; [|apply logsOnly_refl].
    destruct (truthy target) eqn:Ht; [|apply logsOnly_refl].
    exists [deleteUser target]. split; [by simpl|].
    apply Forall_singleton. split; [|by right].
    simpl. unfold truthy in Ht. apply negb_true_iff in Ht.
    by apply String.eqb_neq.
  - apply Hcommit'.
  - unfold handleSearchKeyPress.
    case_decide; [apply Hcommit'|apply logsOnly_refl].
  - apply Hreads. simpl.
    eapply logsOnly_trans; [by apply logsOnly_fetchIfIdle|].
    apply logsOnly_fetchIfIdle. apply queryFns_fetchIfIdle.
  - apply Hreads. by apply logsOnly_settleMutation.
  - by apply logsOnly_same.
  - by apply logsOnly_same.
Qed.

(** X5: in every reachable state an event only adds to the request log,
    and what it adds names its subject; a write request (create, update,
    delete) is added by a submit or by a confirmation only: typing,
    searching, editing a row, cancelling, a window focus and the arrival of
    any outcome send reads at most. *)
Theorem X5_writes_only_on_submit_or_confirm (w : World) (e : Event) :
  reachable w →
  ∃ new,
    calls (client (dispatch e w)) = (new ++ calls (client w))%list
    ∧ Forall namesSubject new
    ∧ (e ≠ Submit → e ≠ ConfirmClick →
       Forall (λ a, isWrite a = false) new).
Proof.
  intros Hreach.
  destruct (reachable_invariant w Hreach) as (Htr & _ & _).
  pose proof (reachable_cacheShape w Hreach) as Hshape.
  destruct (dispatch_logs e w Htr Hshape) as (new & Hnew & Hall).
  exists new. split; [done|]. split.
  - eapply Forall_impl; [exact Hall|]. by intros a [? _].
  - intros Hs Hc. eapply Forall_impl; [exact Hall|].
    intros a [_ Hw]. destruct (isWrite a); [|done].
    by destruct (Hw eq_refl).
Qed.

Lemma X5_writes_only_on_submit_or_confirm_witness :
  ∃ new,
    calls (client (dispatch (MutationSettled 0 true)
                     (dispatch Submit initialWorld)))
    = (new ++ calls (client (dispatch Submit initialWorld)))%list
    ∧ Forall (λ a, isWrite a = false) new.
Proof.
  destruct (X5_writes_only_on_submit_or_confirm
    (dispatch Submit initialWorld) (MutationSettled 0 true)
    (reachable_step Submit initialWorld reachable_initial))
    as (new & Hnew & _ & Hreads).
  exists new. split; [exact Hnew|].
  apply Hreads; discriminate.
Defined.

(** X6: no request ever sent searches for, or deletes, the empty string:
    in every reachable state every [searchUser] and every [deleteUser] in
    the request log carries a non-empty argument. *)
Theorem X6_requests_name_their_subject (w : World) :
  reachable w → Forall namesSubject (calls (client w)).
Proof.
  induction 1 as [|e w Hreach IH].
  { repeat constructor. }
  destruct (reachable_invariant w Hreach) as (Htr & _ & _).
  pose proof (reachable_cacheShape w Hreach) as Hshape.
  destruct (dispatch_logs e w Htr Hshape) as (new & -> & Hall).
  apply Forall_app. split; [|done].
  eapply Forall_impl; [exact Hall|]. by intros a [? _].
Qed.

Lemma X6_requests_name_their_subject_witness :
  Forall namesSubject
    (calls (client (run [DeleteClick ""; ConfirmClick; SearchClick]
                      initialWorld))).
Proof.
  apply (X6_requests_name_their_subject
    (run [DeleteClick ""; ConfirmClick; SearchClick] initialWorld)).
  apply reachable_run. exact reachable_initial.
Defined.

(** ** What the table shows *)

Lemma queryResolved_other k k' result w :
  k' ≠ k →
  queries (client (queryResolved k result w)) !! k'
  = queries (client w) !! k'.
Proof.
  intros Hne. simpl. destruct (queries (client w) !! k) as [q|]; [|done].
  destruct (isFetching q); [|done]. by rewrite lookup_insert_ne.
Qed.

Lemma queryRejected_other k k' w :
  k' ≠ k →
  queries (client (queryRejected k w)) !! k' = queries (client w) !! k'.
Proof.
  intros Hne. simpl. destruct (queries (client w) !! k) as [q|]; [|done].
  destruct (isFetching q); [|done]. by rewrite lookup_insert_ne.
Qed.

(** X7: an answer to a fetch for a search term that is no longer the
    committed one changes nothing on screen, whether it is a result or a
    rejection; and a result of the full-list query never becomes the
    table's rows, which come from the search query alone. *)
Theorem X7_superseded_answers_are_not_shown (w : World) (t : string)
    (result : list User) :
  t ≠ searchTerm (ui w) →
  render (dispatch (QueryResolved (searchKey t) result) w) = render w
  ∧ tableRows (dispatch (QueryResolved (searchKey t) result) w)
    = tableRows w
  ∧ render (dispatch (QueryRejected (searchKey t)) w) = render w
  ∧ tableRows (dispatch (QueryResolved usersKey result) w) = tableRows w.
Proof.
  intros Hne.
  assert (searchKey (searchTerm (ui w)) ≠ searchKey t) as Hk.
  { intros [= H]. congruence. }
  assert (usersKey ≠ searchKey t) as Hu by done.
  assert (searchKey (searchTerm (ui w)) ≠ usersKey) as Hs by done.
  cbn [dispatch]. unfold render, tableRows, searchResults.
  change (ui (queryResolved ?k ?r w)) with (ui w).
  change (ui (queryRejected ?k w)) with (ui w).
  rewrite !(queryResolved_other (searchKey t)) by done.
  rewrite !(queryRejected_other (searchKey t)) by done.
  by rewrite (queryResolved_other usersKey) by done.
Qed.

Lemma X7_superseded_answers_are_not_shown_witness :
  render (dispatch (QueryResolved (searchKey "old")
                      [mkUser "a1" "Ada" "Lovelace"]) initialWorld)
  = render initialWorld.
Proof.
  apply (X7_superseded_answers_are_not_shown initialWorld "old"
           [mkUser "a1" "Ada" "Lovelace"]).
  discriminate.
Defined.



(** X9: committing a term whose results are cached puts those results on
    screen at once, without the loading state of a first fetch: the view
    is the table of the cached rows, unless the full-list query is loading
    (spinner) or in error (error message). Committing a term never fetched
    before shows the spinner and no rows and sends that term's request.
    Either way at most one request is sent. *)
Theorem X9_commit_shows_cached_rows (w : World) :
  (∀ q d,
     queries (client w) !! searchKey (searchInput (ui w)) = Some q →
     data q = Some d →
     searchResults (dispatch SearchClick w) = Some d
     ∧ isLoading (queries (client (dispatch SearchClick w))
                    !! searchKey (searchInput (ui w))) = false
     ∧ render (dispatch SearchClick w)
       = (if isLoading (queries (client w) !! usersKey) then Spinner
          else if from_option qerror false (queries (client w) !! usersKey)
               then ErrorMessage
               else Table d)
     ∧ tableRows (dispatch SearchClick w) = rowCells <$> d)
  ∧ (queries (client w) !! searchKey (searchInput (ui w)) = None →
     searchInput (ui w) ≠ searchTerm (ui w) →
     searchResults (dispatch SearchClick w) = None
     ∧ render (dispatch SearchClick w) = Spinner
     ∧ calls (client (dispatch SearchClick w))
       = searchQueryFn (searchInput (ui w)) :: calls (client w))
  ∧ searchTerm (ui (dispatch SearchClick w)) = searchInput (ui w)
  ∧ (length (calls (client (dispatch SearchClick w)))
     ≤ S (length (calls (client w))))%nat.
Proof.
  assert (searchTerm (ui (dispatch SearchClick w)) = searchInput (ui w))
    as Hterm.
  { cbn [dispatch]. unfold executeSearch, setSearchTerm.
    by destruct (decide (searchInput (ui w) = searchTerm (ui w))). }
  assert (queries (client (dispatch SearchClick w)) !! usersKey
          = queries (client w) !! usersKey) as Husers.
  { cbn [dispatch]. unfold executeSearch, setSearchTerm.
    case_decide; [done|]. simpl. by apply observeQuery_other. }
  assert (∀ q d,
     queries (client w) !! searchKey (searchInput (ui w)) = Some q →
     data q = Some d →
     searchResults (dispatch SearchClick w) = Some d
     ∧ isLoading (queries (client (dispatch SearchClick w))
                    !! searchKey (searchInput (ui w))) = false) as Hcached.
  { cbn [dispatch]. unfold executeSearch, setSearchTerm.
    set (t := searchInput (ui w)).
    intros q d Hq Hd. unfold searchResults.
    destruct (decide (t = searchTerm (ui w))) as [Heq|Hne].
    + rewrite <- Heq, Hq. simpl. rewrite Hd. split; [done|].
      by rewrite andb_false_r.
    + cbn [client ui withClient withUi searchTerm].
      unfold observeQuery, fetchIfIdle, refetch. rewrite Hq.
      destruct (isFetching q) eqn:Hf.
      * rewrite Hq. simpl. rewrite Hd. split; [done|].
        by rewrite andb_false_r.
      * cbn [queries logCall withQueries]. rewrite lookup_insert_eq.
        simpl. rewrite Hd. split; [done|]. by rewrite andb_false_r. }
  split; [|split; [|split]].
  - intros q d Hq Hd. destruct (Hcached q d Hq Hd) as [Hres Hload].
    split; [done|]. split; [done|]. split.
    + unfold render. by rewrite Hres, Husers, Hterm, Hload, orb_false_r.
    + unfold tableRows. by rewrite Hres.
  - cbn [dispatch]. unfold executeSearch, setSearchTerm.
    set (t := searchInput (ui w)).
    intros Hq Hne. rewrite decide_False by done.
    unfold searchResults, render.
    cbn [client ui withClient withUi searchTerm].
    unfold observeQuery. rewrite Hq.
    cbn [queries logCall withQueries calls].
    rewrite lookup_insert_eq. simpl.
    split; [done|]. split; [|done]. by rewrite orb_true_r.
  - exact Hterm.
  - cbn [dispatch]. unfold executeSearch, setSearchTerm.
    set (t := searchInput (ui w)).
    destruct (decide (t = searchTerm (ui w))); [lia|].
    cbn [client ui withClient withUi searchTerm].
    unfold observeQuery, fetchIfIdle, refetch.
    destruct (queries (client w) !! searchKey t) as [q|] eqn:Hq.
    + destruct (isFetching q); [lia|]. simpl. lia.
    + simpl. lia.
Qed.

Lemma X9_commit_shows_cached_rows_witness :
  render (run [SearchChange "Jane"; SearchClick] initialWorld) = Spinner
  ∧ calls (client (run [SearchChange "Jane"; SearchClick] initialWorld))
    = searchUser "Jane"
        :: calls (client (dispatch (SearchChange "Jane") initialWorld))
  ∧ render (run [QueryResolved usersKey [mkUser "a1" "Ada" "Lovelace"];
                 QueryResolved (searchKey "") [mkUser "a1" "Ada" "Lovelace"];
                 SearchChange "Jane"; SearchClick;
                 SearchChange ""; SearchClick] initialWorld)
    = Table [mkUser "a1" "Ada" "Lovelace"].
Proof.
  destruct (proj1 (proj2 (X9_commit_shows_cached_rows
    (dispatch (SearchChange "Jane") initialWorld))) eq_refl
    ltac:(discriminate)) as (_ & Hrender & Hcalls).
  split; [exact Hrender|]. split; [exact Hcalls|].
  apply (proj1 (proj2 (proj2 (proj1 (X9_commit_shows_cached_rows
    (run [QueryResolved usersKey [mkUser "a1" "Ada" "Lovelace"];
          QueryResolved (searchKey "") [mkUser "a1" "Ada" "Lovelace"];
          SearchChange "Jane"; SearchClick; SearchChange ""] initialWorld))
    (mkQuery getUsers (Some [mkUser "a1" "Ada" "Lovelace"])
       false false false)
    [mkUser "a1" "Ada" "Lovelace"] eq_refl eq_refl)))).
Defined.

(** ** The identifier column *)

Lemma substring_prefix_length n s :
  String.length (String.substring 0 n s) = Nat.min n (String.length s).
Proof.
  revert s. induction n as [|n IH]; intros s; [by destruct s|].
  destruct s as [|c s]; simpl; [done|]. by rewrite IH.
Qed.

Lemma substring_prefix_prefix n s :
  String.prefix (String.substring 0 n s) s = true.
Proof.
  revert s. induction n as [|n IH]; intros s; [by destruct s|].
  destruct s as [|c s]; simpl; [done|].
  destruct (Ascii.ascii_dec c c); [apply IH|done].
Qed.

Lemma substring_prefix_short n s :
  (String.length s ≤ n)%nat → String.substring 0 n s = s.
Proof.
  revert s. induction n as [|n IH]; intros s Hlen.
  - destruct s; [done|]. simpl in Hlen. lia.
  - destruct s as [|c s]; simpl; [done|]. rewrite IH; [done|].
    simpl in Hlen. lia.
Qed.

(** X10: the identifier cell of a row shows a prefix of the user's
    identifier, eight code units long or the whole identifier if that is
    shorter; so an identifier of up to eight code units is shown in full,
    and cutting the shown text again changes nothing. *)
Theorem X10_identifier_cell (user : User) :
  String.length (displayId user)
  = Nat.min 8 (String.length (id user))
  ∧ String.prefix (displayId user) (id user) = true
  ∧ ((String.length (id user) ≤ 8)%nat → displayId user = id user)
  ∧ String.substring 0 8 (displayId user) = displayId user.
Proof.
  unfold displayId. split; [apply substring_prefix_length|].
  split; [apply substring_prefix_prefix|].
  split; [apply substring_prefix_short|].
  apply substring_prefix_short. rewrite substring_prefix_length. lia.
Qed.

Lemma X10_identifier_cell_witness :
  displayId (mkUser "a1b2" "Ada" "Lovelace") = "a1b2".
Proof.
  apply (proj1 (proj2 (proj2
    (X10_identifier_cell (mkUser "a1b2" "Ada" "Lovelace"))))).
  simpl. lia.
Defined.

(** ** Window focus *)





(** ** Success callbacks and the whole cache *)

Lemma refetch_keeps k' c k q :
  queries c !! k = Some q →
  ∃ q', queries (refetch k' c) !! k = Some q'
        ∧ data q' = data q ∧ isInvalidated q' = isInvalidated q.
Proof.
  intros Hq. unfold refetch.
  destruct (queries c !! k') as [q0|] eqn:Hq0; simpl; [|by exists q].
  rewrite lookup_insert. case_decide as Hk; [|by exists q].
  subst k'. simplify_eq. by eexists.
Qed.

Lemma invalidateQueriesIn_keeps queryKey active c k q :
  queries c !! k = Some q →
  ∃ q', queries (invalidateQueriesIn queryKey active c) !! k = Some q'
        ∧ data q' = data q
        ∧ (queryKey `prefix_of` k → isInvalidated q' = true)
        ∧ (isInvalidated q = true → isInvalidated q' = true).
Proof.
  intros Hq. unfold invalidateQueriesIn.
  set (c0 := withQueries _ c).
  assert (∃ q0, queries c0 !! k = Some q0 ∧ data q0 = data q
                ∧ (queryKey `prefix_of` k → isInvalidated q0 = true)
                ∧ (isInvalidated q = true → isInvalidated q0 = true))
    as (q0 & Hq0 & Hd0 & Hp0 & Hi0).
  { subst c0. simpl. rewrite map_lookup_imap, Hq. simpl.
    eexists. split; [done|]. unfold matchesKey.
    case_bool_decide; simpl; by repeat split. }
  clearbody c0. revert c0 q0 Hq0 Hd0 Hp0 Hi0.
  induction active as [|k' active IH]; intros c0 q0 Hq0 Hd0 Hp0 Hi0; simpl.
  - by exists q0.
  - destruct (matchesKey queryKey k').
    + destruct (refetch_keeps k' c0 k q0 Hq0) as (q1 & Hq1 & Hd1 & Hi1).
      apply (IH _ q1 Hq1); [congruence|rewrite Hi1; tauto..].
    + by apply (IH _ q0).
Qed.

(** X12: in every reachable state every cached query sits under the
    [users] key, so the success callback of each of the three mutations
    marks the whole cache invalidated, the cached search results after a
    create or an update as well as after a delete; the data each query
    holds stays in place until its refetch arrives, and no entry is added
    to the cache. *)
Theorem X12_success_invalidates_whole_cache (w : World)
    (cb : option (list Effect)) :
  reachable w →
  cb ∈ [onSuccess createUserOptions; onSuccess deleteUserOptions;
        onSuccess updateUserOptions] →
  (∀ k, is_Some (queries (client w) !! k) → ["users"] `prefix_of` k)
  ∧ (∀ k q, queries (client w) !! k = Some q →
       ∃ q', queries (client (runCallback cb w)) !! k = Some q'
             ∧ isInvalidated q' = true ∧ data q' = data q)
  ∧ (∀ k, queries (client w) !! k = None →
       queries (client (runCallback cb w)) !! k = None).
Proof.
  intros Hreach Hcb.
  pose proof (reachable_cacheShape w Hreach) as Hshape.
  assert (∀ k, is_Some (queries (client w) !! k) → ["users"] `prefix_of` k)
    as Hprefix.
  { intros k [q Hq].
    destruct (Hshape k (queryFn q)) as [[-> _] | (t & -> & _)].
    - unfold queryFns. by rewrite lookup_fmap, Hq.
    - done.
    - by exists ["search"; t]. }
  split; [done|]. split.
  - intros k q Hq.
    destruct (invalidateQueriesIn_keeps ["users"] (activeKeys (ui w))
                (client w) k q Hq) as (q1 & Hq1 & Hd1 & Hp1 & _).
    specialize (Hp1 (Hprefix k (mk_is_Some _ _ Hq))).
    apply elem_of_cons in Hcb as [-> | Hcb]; [by exists q1|].
    apply elem_of_cons in Hcb as [-> | Hcb].
    { simpl.
      destruct (invalidateQueriesIn_keeps ["users"; "search"]
                  (activeKeys (ui w)) _ k q1 Hq1)
        as (q2 & Hq2 & Hd2 & _ & Hi2).
      exists q2. split; [done|]. split; [by apply Hi2|congruence]. }
    apply list_elem_of_singleton in Hcb as ->. by exists q1.
  - intros k Hk.
    pose proof (queryFns_runCallback cb w) as Hfns.
    apply (f_equal (λ m, m !! k)) in Hfns. unfold queryFns in Hfns.
    rewrite !lookup_fmap, Hk in Hfns.
    by destruct (queries (client (runCallback cb w)) !! k).
Qed.

Lemma X12_success_invalidates_whole_cache_witness :
  ∃ q', queries (client (runCallback (onSuccess createUserOptions)
                           initialWorld)) !! searchKey "" = Some q'
        ∧ isInvalidated q' = true ∧ data q' = None.
Proof.
  apply (proj1 (proj2 (X12_success_invalidates_whole_cache initialWorld
    (onSuccess createUserOptions) reachable_initial
    ltac:(apply list_elem_of_here))) (searchKey "") (newQuery getUsers)).
  reflexivity.
Defined.

(** ** The form stays complete *)

Lemma formDefined_insert name value f :
  formDefined f → formDefined (<[name := value]> f).
Proof.
  intros [H1 H2]. split; rewrite lookup_insert; by case_decide.
Qed.

Lemma runCallback_formDefined cb w :
  keepsForm cb →
  formDefined (formData (ui w)) →
  formDefined (formData (ui (runCallback cb w))).
Proof.
  destruct cb as [body|]; simpl; [|done].
  intros Hcb. revert w.
  induction Hcb as [|e body He Hbody IH]; intros w Hw; simpl; [done|].
  apply IH. by destruct e.
Qed.

Lemma callbacksKeepForm_frame c c' :
  mutationSide c' = mutationSide c →
  callbacksKeepForm c → callbacksKeepForm c'.
Proof.
  intros Hside [H1 H2]. split.
  - intros mid m Hm. apply (H1 mid).
    unfold mutationSide in Hside. simplify_eq. congruence.
  - intros name. rewrite (observerOf_mutationSide name _ _ Hside). apply H2.
Qed.

Lemma callbacksKeepForm_mutate {V} name (options : MutationOptions V)
    variables mo w :
  keepsForm (onSuccess options) → keepsForm (onError options) →
  keepsForm (callOnSuccess mo) → keepsForm (callOnError mo) →
  callbacksKeepForm (client w) →
  callbacksKeepForm (client (mutate name options variables mo w)).
Proof.
  intros Hs He Hcs Hce [H1 H2]. split.
  - intros mid m. simpl.
    rewrite lookup_insert. case_decide; [by intros [= <-]|apply H1].
  - intros name'. simpl. rewrite observerOf_setObserver.
    case_decide; [done|].
    replace (observerOf name' _) with (observerOf name' (client w))
      by by destruct name'.
    apply H2.
Qed.

Lemma callbacksKeepForm_settledObserver name mid st c :
  callbacksKeepForm c → callbacksKeepForm (settledObserver name mid st c).
Proof.
  intros [H1 H2]. split.
  - intros mid' m'. unfold settledObserver.
    replace (mutations (setObserver _ _ _))
      with (delete mid (mutations c)) by by destruct name.
    rewrite lookup_delete. case_decide; [done|apply H1].
  - intros name'. unfold settledObserver. rewrite observerOf_setObserver.
    case_decide as Hn; simpl.
    + subst name'. apply H2.
    + replace (observerOf name' (withMutations _ _))
        with (observerOf name' c) by by destruct name'.
      apply H2.
Qed.

Lemma settleMutation_formDefined mid ok w :
  callbacksKeepForm (client w) →
  formDefined (formData (ui w)) →
  formDefined (formData (ui (settleMutation mid ok w))).
Proof.
  intros [H1 H2] Hw. unfold settleMutation.
  destruct (mutations (client w) !! mid) as [m|] eqn:Hm; [|done].
  destruct (H1 _ _ Hm) as [Hs He].
  assert (∀ cb st pick,
            keepsForm cb →
            (∀ name, keepsForm (pick (mutateOptions
                                        (observerOf name (client w))))) →
            formDefined (formData (ui
              (notifyObserver (owner m) mid st pick
                 (withClient (withMutations (delete mid))
                    (runCallback cb w)))))) as Hn.
  { intros cb st pick Hcb Hpick. unfold notifyObserver.
    case_decide.
    - apply runCallback_formDefined.
      + simpl.
        replace (observerOf (owner m) (withMutations _ _))
          with (observerOf (owner m) (client (runCallback cb w)))
          by by destruct (owner m).
        rewrite runCallback_observerOf. apply Hpick.
      + simpl. by apply runCallback_formDefined.
    - simpl. by apply runCallback_formDefined. }
  destruct ok; [|destruct (Nat.ltb _ _); [done|]].
  - apply Hn; [done|]. intros name. apply H2.
  - apply Hn; [done|]. intros name. apply H2.
Qed.

Lemma reachable_formDefined w :
  reachable w →
  formDefined (formData (ui w)) ∧ callbacksKeepForm (client w).
Proof.
  assert (formDefined emptyForm) as Hempty.
  { split; by eexists. }
  assert (keepsForm (onSuccess createUserOptions)) as Hc.
  { simpl. by repeat constructor. }
  assert (keepsForm (onSuccess deleteUserOptions)) as Hd.
  { simpl. by repeat constructor. }
  assert (keepsForm (onSuccess updateUserOptions)) as Hu.
  { simpl. by repeat constructor. }
  assert (keepsForm (callOnSuccess handleUpdateOptions)) as Hh.
  { simpl. by repeat constructor. }
  induction 1 as [|e w Hreach [Hform Hcbs]].
  { split; [done|]. split; [intros mid m; simpl|intros []; done].
    unfold observeQuery; simpl. by rewrite lookup_empty. }
  destruct (reachable_invariant w Hreach) as (Htr & _ & _).
  destruct e; cbn [dispatch].
  - (* InputChange *)
    split; [by apply formDefined_insert|exact Hcbs].
  - (* Submit *)
    unfold onSubmit. destruct (submitDisabled w); [done|].
    unfold handleUpdate, handleSubmit.
    destruct (editingUser (ui w));
      (split; [exact Hform|by apply callbacksKeepForm_mutate]).
  - (* CancelClick *) split; [exact Hempty|exact Hcbs].
  - (* EditClick *) split; [split; by eexists|exact Hcbs].
  - (* DeleteClick *)
    unfold onDeleteClick.
    destruct (isPending (deleteObserver (client w)));
      (split; [exact Hform|exact Hcbs]).
  - (* ConfirmClick *)
    unfold handleConfirmDelete.
    destruct (userToDelete (ui w)) as [target|]; [|done].
    destruct (truthy target); [|done]. split; [exact Hform|].
    by apply (callbacksKeepForm_mutate deleteUserMutation
                deleteUserOptions target noMutateOptions w).
  - (* CloseModal *) split; [exact Hform|exact Hcbs].
  - (* SearchChange *) split; [exact Hform|exact Hcbs].
  - (* SearchClick *)
    unfold executeSearch, setSearchTerm. case_decide; [done|].
    split; [exact Hform|]. revert Hcbs. apply callbacksKeepForm_frame.
    simpl. apply mutationSide_observeQuery.
  - (* SearchKeyDown *)
    unfold handleSearchKeyPress, executeSearch, setSearchTerm.
    case_decide; [|done]. case_decide; [done|].
    split; [exact Hform|]. revert Hcbs. apply callbacksKeepForm_frame.
    simpl. apply mutationSide_observeQuery.
  - (* WindowFocus *)
    split; [exact Hform|]. revert Hcbs. apply callbacksKeepForm_frame.
    simpl. by rewrite !mutationSide_fetchIfIdle.
  - (* MutationSettled *)
    split; [by apply settleMutation_formDefined|].
    destruct (mutations (client w) !! mid) as [m|] eqn:Hm.
    + eapply callbacksKeepForm_frame;
        [by apply settleMutation_tracked_side|].
      by apply callbacksKeepForm_settledObserver.
    + unfold settleMutation. by rewrite Hm.
  - (* QueryResolved *) split; [exact Hform|exact Hcbs].
  - (* QueryRejected *) split; [exact Hform|exact Hcbs].
Qed.

(** X13: the form is always complete. In every reachable state Form State
    has both a first-name and a last-name entry, so the two inputs always
    have a value to show and every create or update request carries both
    fields. *)
Theorem X13_form_is_always_complete (w : World) :
  reachable w →
  is_Some (formData (ui w) !! "firstName")
  ∧ is_Some (formData (ui w) !! "lastName")
  ∧ (∀ payload,
       calls (client (dispatch Submit w))
       = createUser payload :: calls (client w) →
       formDefined payload)
  ∧ (∀ uid payload,
       calls (client (dispatch Submit w))
       = updateUser uid payload :: calls (client w) →
       formDefined payload).
Proof.
  intros Hreach.
  destruct (reachable_formDefined w Hreach) as [[Hf Hl] _].
  assert (∀ a, calls (client w) ≠ a :: calls (client w)) as Hfresh.
  { intros a Heq. apply (f_equal length) in Heq. simpl in Heq. lia. }
  split; [done|]. split; [done|].
  cbn [dispatch]. unfold onSubmit, handleUpdate, handleSubmit.
  split.
  - intros payload.
    destruct (submitDisabled w); [intros H; by apply Hfresh in H|].
    destruct (editingUser (ui w)); simpl; intros H; by simplify_eq.
  - intros uid payload.
    destruct (submitDisabled w); [intros H; by apply Hfresh in H|].
    destruct (editingUser (ui w)); simpl; intros H; by simplify_eq.
Qed.

Lemma X13_form_is_always_complete_witness :
  is_Some (formData (ui (run [InputChange "nickname" "x"; Submit;
                              MutationSettled 0 true] initialWorld))
             !! "firstName").
Proof.
  apply (proj1 (X13_form_is_always_complete
    (run [InputChange "nickname" "x"; Submit; MutationSettled 0 true]
       initialWorld)
    (reachable_run _ _ reachable_initial))).
Defined.

(** ** Cancelling the form *)

(** X14: the form's Cancel button empties the form and leaves edit mode
    without touching the query client, so a request in flight is not
    withdrawn; and since nothing checks the fields, the next submit with
    the button enabled registers a user with two empty names. *)
Theorem X14_cancel_then_submit (w : World) :
  submitDisabled w = false →
  let cancelled := dispatch CancelClick w in
  formData (ui cancelled) = emptyForm
  ∧ editingUser (ui cancelled) = None
  ∧ client cancelled = client w
  ∧ submitLabel cancelled = "Register"
  ∧ calls (client (dispatch Submit cancelled))
    = createUser emptyForm :: calls (client w).
Proof.
  intros Hen cancelled.
  split; [done|]. split; [done|]. split; [done|].
  unfold submitDisabled in Hen. apply orb_false_elim in Hen as [Hc Hu].
  split.
  - unfold submitLabel. simpl. by rewrite Hc.
  - cbn [dispatch]. unfold onSubmit, submitDisabled. simpl.
    by rewrite Hc, Hu.
Qed.

Lemma X14_cancel_then_submit_witness :
  calls (client (run [EditClick (mkUser "a1" "Ada" "Lovelace");
                      CancelClick; Submit] initialWorld))
  = createUser emptyForm :: calls (client initialWorld).
Proof.
  apply (X14_cancel_then_submit
           (dispatch (EditClick (mkUser "a1" "Ada" "Lovelace"))
              initialWorld)).
  reflexivity.
Defined.

(** ** The recorded target *)

Lemma gate_cells_dispatch e w :
  gateEvent e = false →
  isDeleteModalOpen (ui (dispatch e w)) = isDeleteModalOpen (ui w)
  ∧ userToDelete (ui (dispatch e w)) = userToDelete (ui w).
Proof.
  intros Hg. destruct e; try done; cbn [dispatch].
  - unfold onSubmit. destruct (submitDisabled w); [done|].
    unfold handleUpdate. by destruct (editingUser (ui w)).
  - unfold executeSearch, setSearchTerm. by case_decide.
  - unfold handleSearchKeyPress, executeSearch, setSearchTerm.
    case_decide; [|done]. by case_decide.
  - pose proof (settleMutation_untouched mid ok w) as Hu.
    unfold untouchedByCallbacks in Hu. by injection Hu.
Qed.

Lemma gate_cells_run evs w :
  Forall (λ e, gateEvent e = false) evs →
  isDeleteModalOpen (ui (run evs w)) = isDeleteModalOpen (ui w)
  ∧ userToDelete (ui (run evs w)) = userToDelete (ui w).
Proof.
  intros Hevs. revert w.
  induction Hevs as [|e evs He Hevs IH]; intros w; [done|].
  simpl. destruct (IH (dispatch e w)) as [-> ->].
  by apply gate_cells_dispatch.
Qed.

(** X15: the recorded target survives everything but the gate's own
    buttons. After a delete click on an enabled row button, whatever
    happens other than a further delete click, a confirmation or a close
    (typing, searching, form edits and submits, the arrival of outcomes),
    the prompt stays open on the clicked row and a confirmation then sends
    [deleteUser] for exactly that row's identifier, provided it is not
    empty. *)
Theorem X15_confirm_deletes_the_clicked_row (w : World) (uid : string)
    (evs : list Event) :
  isPending (deleteObserver (client w)) = false →
  uid ≠ "" →
  Forall (λ e, gateEvent e = false) evs →
  let waiting := run evs (dispatch (DeleteClick uid) w) in
  awaitingConfirmation waiting uid
  ∧ calls (client (dispatch ConfirmClick waiting))
    = deleteUser uid :: calls (client waiting)
  ∧ gateIdle (dispatch ConfirmClick waiting).
Proof.
  intros Hp Hne Hevs waiting.
  destruct (gate_cells_run evs (dispatch (DeleteClick uid) w) Hevs)
    as [Hopen Htarget].
  fold waiting in Hopen, Htarget.
  assert (awaitingConfirmation waiting uid) as [Ho Ht].
  { split.
    - rewrite Hopen. cbn [dispatch]. unfold onDeleteClick. by rewrite Hp.
    - rewrite Htarget. cbn [dispatch]. unfold onDeleteClick. by rewrite Hp. }
  split; [done|].
  assert (truthy uid = true) as Htruthy.
  { unfold truthy. apply negb_true_iff. by apply String.eqb_neq. }
  cbn [dispatch]. unfold handleConfirmDelete. rewrite Ht, Htruthy.
  by split.
Qed.

Lemma X15_confirm_deletes_the_clicked_row_witness :
  calls (client (run [DeleteClick "a1"; SearchChange "J"; Submit;
                      MutationSettled 0 true; ConfirmClick] initialWorld))
  = deleteUser "a1"
      :: calls (client (run [DeleteClick "a1"; SearchChange "J"; Submit;
                             MutationSettled 0 true] initialWorld)).
Proof.
  apply (X15_confirm_deletes_the_clicked_row initialWorld "a1"
           [SearchChange "J"; Submit; MutationSettled 0 true]
           eq_refl ltac:(discriminate) ltac:(repeat constructor)).
Defined.
